(** * The reel bot: daily batch lifecycle of [app.py]

    A shallow embedding of [InstagramReelBot]: the JSON stores, the
    description ledger, the download directory, the batch materializer
    ([process_daily_reels]), the upload drainer ([upload_next_reel]) and the
    weekly schedule table ([setup_schedule]).

    The bot is stateful Python: every method reads and writes files, logs,
    and may raise.  It is embedded in a small state / exception / log monad
    [Bot] over the record [World], which holds the persisted files.  What the
    outside answers during a call (the clock, [random], Instaloader, the
    instagrapi client) is the record [Env], handed to every scheduled call;
    the properties hold for every [Env].

    The files are typed: [reels.json] and [used.json] hold lists of strings,
    a [daily_reels_<date>.json] holds a list of entries, [description.xlsx]
    a list of rows.  A JSON file may also be absent or undecodable, the
    ledger absent or unreadable, as the code provides for.  Video paths are
    resolved in the download directory.

    The ledger is read and written through pandas and openpyxl, whose code is
    not part of the repository.  What they do with the text of a sheet is an
    answer of the outside like the others: the frame [pd.read_excel] builds
    from a sheet need not be the sheet (a cell it takes for a missing value
    comes back blank), the assignment of a timestamp may be refused, and
    [to_excel] may refuse a cell and leave a partial sheet.  The bot wraps
    every ledger update in [try/except] for that reason, and so does the
    embedding. *)

From Stdlib Require Import Ascii String.
From stdpp Require Import base strings list gmap pretty.

Open Scope string_scope.
Open Scope list_scope.
Open Scope nat_scope.

(** ** Strings, as the code uses them *)

Module Str.

(** [s.rstrip(c)]: drop every trailing occurrence of the character. *)
Fixpoint rstrip (c : ascii) (s : string) : string :=
  match s with
  | EmptyString => EmptyString
  | String a s' =>
      match rstrip c s' with
      | EmptyString => if decide (a = c) then EmptyString else String a EmptyString
      | r => String a r
      end
  end.

(** [s.split(c)]: the segments between occurrences of the separator; never
    the empty list. *)
Fixpoint split (c : ascii) (s : string) : list string :=
  match s with
  | EmptyString => [EmptyString]
  | String a s' =>
      match split c s' with
      | seg :: rest =>
          if decide (a = c) then EmptyString :: seg :: rest
          else String a seg :: rest
      | [] => []
      end
  end.

(** [sub in s]. *)
Fixpoint contains (sub s : string) : bool :=
  String.prefix sub s ||
  match s with
  | EmptyString => false
  | String _ s' => contains sub s'
  end.

(** [s.endswith(suf)]. *)
Fixpoint endswith (suf s : string) : bool :=
  String.eqb s suf ||
  match s with
  | EmptyString => false
  | String _ s' => endswith suf s'
  end.

(** [s.startswith(pre)] with the rest of the string: [Some rest] when
    [s = pre + rest]. *)
Fixpoint strip_prefix (pre s : string) : option string :=
  match pre, s with
  | EmptyString, _ => Some s
  | String a pre', String b s' =>
      if decide (a = b) then strip_prefix pre' s' else None
  | String _ _, EmptyString => None
  end.

(** Zero-padded decimal, as [%Y], [%m], [%d], [%H], [%M], [%S] print. *)
Fixpoint zeros (n : nat) : string :=
  match n with
  | O => EmptyString
  | S n' => String "0" (zeros n')
  end.

Definition zpad (width n : nat) : string :=
  let digits := pretty n in
  zeros (width - String.length digits) +:+ digits.

End Str.

(** ** The clock *)

Record datetime := mk_datetime {
  year : nat; month : nat; day : nat;
  hour : nat; minute : nat; second : nat
}.

(** [strftime('%Y-%m-%d')]. *)
Definition strftime_date (t : datetime) : string :=
  Str.zpad 4 (year t) +:+ "-" +:+ Str.zpad 2 (month t) +:+ "-" +:+ Str.zpad 2 (day t).

(** [strftime('%Y-%m-%d %H:%M:%S')]. *)
Definition strftime_datetime (t : datetime) : string :=
  strftime_date t +:+ " " +:+ Str.zpad 2 (hour t) +:+ ":" +:+ Str.zpad 2 (minute t)
    +:+ ":" +:+ Str.zpad 2 (second t).

(** ** Persisted data *)

(** One element of a day's queue: the dict [download_reel] returns. *)
Record BatchEntry := mk_entry {
  file_path : string;
  description : string;
  url : string
}.

(** One row of [description.xlsx]. *)
Record Row := mk_row {
  URL : string;
  Description : string;
  Download_Date : string;
  Upload_Date : string
}.

Global Instance BatchEntry_eq_dec : EqDecision BatchEntry.
Proof. solve_decision. Defined.

Global Instance Row_eq_dec : EqDecision Row.
Proof. solve_decision. Defined.

(** What a [.json] path holds when it exists: text [json.load] rejects, or a
    decoded list. *)
Inductive json (A : Type) : Type :=
  | Malformed
  | Holds (v : A).
Arguments Malformed {A}.
Arguments Holds {A} v.

(** The files of the working directory.  [None] is a path that does not
    exist.  [daily_json] is keyed by file name ([daily_reels_<date>.json]);
    [dir_listing] lists the names in the download directory in
    [os.listdir] order. *)
Record World := mk_world {
  reels_json : option (json (list string));
  used_json : option (json (list string));
  daily_json : gmap string (json (list BatchEntry));
  description_xlsx : option (list Row);
  dir_listing : list string
}.

Definition download_dir : string := "downloaded_reels".
Definition reels_file : string := "reels.json".
Definition used_file : string := "used.json".
Definition description_file : string := "description.xlsx".
Definition daily_limit : nat := 5.

(** What [df.to_excel] does with a frame: it writes every cell and the file
    then holds the frame, or it refuses a cell and raises, and the file holds
    what had been written by then. *)
Inductive written :=
  | Saved
  | Refused (partial : list Row).

(** ** Logging *)

Inductive level := INFO | WARNING | ERROR.

(** The messages of the [logger] calls, with their interpolated values. *)
Inductive message :=
  | Error_reading (filename : string)
  | Failed_to_extract_info (u : string)
  | Skipping_not_a_video (u : string)
  | Successfully_downloaded (u : string)
  | Failed_to_download (u : string)
  | Failed_to_save_description
  | Failed_to_update_upload_date
  | Successfully_uploaded (video_path : string)
  | Deleted_video_file (video_path : string)
  | Failed_to_upload (video_path : string)
  | Not_enough_reels (found : nat)
  | Prepared_reels (count : nat)
  | No_reels_prepared
  | All_reels_uploaded.

Record LogRecord := mk_log { levelname : level; msg : message }.

(** ** The outside world *)

(** What Instaloader knows of a post. *)
Record Post := mk_post { caption : option string; is_video : bool }.

(** The answers of the collaborators during one scheduled call.  [None] and
    [false] stand for a raised exception.  The last three are the answers of
    the spreadsheet library: the frame [pd.read_excel] builds from a sheet,
    whether [df.loc[df['URL'] == url, 'Upload_Date'] = stamp] is accepted for
    a URL and a frame, and what [df.to_excel] does with a frame. *)
Record Env := mk_env {
  now : datetime;
  randbelow : list nat;
  from_shortcode : string → option Post;
  download_post : string → option (list string);
  clip_upload : string → string → bool;
  pd_read_excel : list Row → list Row;
  loc_takes : string → list Row → bool;
  df_to_excel : list Row → written
}.

(** ** The monad of bot methods *)

Inductive exn :=
  | FileNotFoundError
  | JSONDecodeError
  | ValueError
  | InstaloaderException
  | ClientError
  | TypeError
  | IllegalCharacterError.

Record Outcome (A : Type) := mk_outcome {
  returned : exn + A;
  world : World;
  logs : list LogRecord
}.
Arguments mk_outcome {A}.
Arguments returned {A}.
Arguments world {A}.
Arguments logs {A}.

Definition Bot (A : Type) : Type := World → Outcome A.

Global Instance Bot_ret : MRet Bot := λ A a w, mk_outcome (inr a) w [].

Global Instance Bot_bind : MBind Bot := λ A B f m w,
  match m w with
  | mk_outcome (inl e) w' l => mk_outcome (inl e) w' l
  | mk_outcome (inr a) w' l =>
      match f a w' with
      | mk_outcome r w'' l' => mk_outcome r w'' (l ++ l')
      end
  end.

Definition raise {A} (e : exn) : Bot A := λ w, mk_outcome (inl e) w [].

(** [try: body / except: handler]. *)
Definition try_except {A} (body : Bot A) (handler : exn → Bot A) : Bot A := λ w,
  match body w with
  | mk_outcome (inl e) w' l =>
      match handler e w' with
      | mk_outcome r w'' l' => mk_outcome r w'' (l ++ l')
      end
  | mk_outcome (inr a) w' l => mk_outcome (inr a) w' l
  end.

Definition get_world : Bot World := λ w, mk_outcome (inr w) w [].
Definition put_world (w' : World) : Bot unit := λ _, mk_outcome (inr tt) w' [].

Definition logger (l : level) (m : message) : Bot unit :=
  λ w, mk_outcome (inr tt) w [mk_log l m].

(** ** The record store *)

(** [load_json_file]: the decoded list; a missing file and (after an error
    line) an undecodable one read as the empty list. *)
Definition load_json_file {A} (filename : string) (f : World → option (json (list A)))
  : Bot (list A) :=
  try_except
    (w ← get_world;
     match f w with
     | None => raise FileNotFoundError
     | Some Malformed => raise JSONDecodeError
     | Some (Holds v) => mret v
     end)
    (λ e, match e with
          | FileNotFoundError => mret []
          | JSONDecodeError => logger ERROR (Error_reading filename);; mret []
          | _ => raise e
          end).

(** Where the decoded list of a [.json] path goes in the record. *)
Definition used_store (data : list string) (w : World) : World :=
  mk_world (reels_json w) (Some (Holds data)) (daily_json w) (description_xlsx w)
    (dir_listing w).

Definition daily_store (filename : string) (data : list BatchEntry) (w : World) : World :=
  mk_world (reels_json w) (used_json w) (<[filename := Holds data]> (daily_json w))
    (description_xlsx w) (dir_listing w).

(** [save_json_file]: the path now holds the list. *)
Definition save_json_file {A} (filename : string) (store : list A → World → World)
    (data : list A) : Bot unit :=
  w ← get_world;
  put_world (store data w).

(** [initialize_files]: an absent [used.json] becomes [[]], an absent ledger
    a sheet with no rows (a frame without rows has no cell that the library
    could refuse). *)
Definition initialize_files : Bot unit :=
  w ← get_world;
  (if used_json w is None then save_json_file used_file used_store [] else mret tt);;
  w ← get_world;
  if description_xlsx w is None
  then put_world (mk_world (reels_json w) (used_json w) (daily_json w) (Some [])
                    (dir_listing w))
  else mret tt.

(** ** Eligibility *)

Definition get_available_reels : Bot (list string) :=
  all_reels ← load_json_file reels_file reels_json;
  used_reels ← load_json_file used_file used_json;
  mret (filter (λ reel, reel ∉ used_reels) all_reels).

(** ** Sampling *)

(** [random.sample]: [k] positions drawn without replacement, each decided
    by the next answer of the generator, reduced to the size of what is
    still in the pool. *)
Fixpoint draw {A} (pool : list A) (k : nat) (rs : list nat) : list A :=
  match k with
  | O => []
  | S k' =>
      let j := hd 0 rs `mod` length pool in
      match pool !! j with
      | Some x => x :: draw (delete j pool) k' (tl rs)
      | None => []
      end
  end.

(** A sample larger than the population is a [ValueError]. *)
Definition random_sample {A} (env : Env) (population : list A) (k : nat) : Bot (list A) :=
  if decide (k ≤ length population)%nat
  then mret (draw population k (randbelow env))
  else raise ValueError.

(** ** The ledger *)

Record ReelInfo := mk_info {
  info_url : string;
  info_description : string;
  info_shortcode : string;
  info_is_video : bool
}.

(** The file with another sheet. *)
Definition ledger_store (sheet : list Row) (w : World) : World :=
  mk_world (reels_json w) (used_json w) (daily_json w) (Some sheet) (dir_listing w).

(** [pd.read_excel(description_file)]: raises without a readable file;
    otherwise the frame the library builds from the sheet. *)
Definition read_excel (env : Env) : Bot (list Row) :=
  w ← get_world;
  match description_xlsx w with
  | Some sheet => mret (pd_read_excel env sheet)
  | None => raise FileNotFoundError
  end.

(** [df.to_excel(description_file, index=False)]: the file holds the frame,
    or the library raises and the file holds the part it had written. *)
Definition to_excel (env : Env) (df : list Row) : Bot unit :=
  w ← get_world;
  match df_to_excel env df with
  | Saved => put_world (ledger_store df w)
  | Refused partial => put_world (ledger_store partial w);; raise IllegalCharacterError
  end.

Definition save_description_to_excel (env : Env) (reel_info : ReelInfo) : Bot unit :=
  try_except
    (df ← read_excel env;
     let new_row := mk_row (info_url reel_info) (info_description reel_info)
                      (strftime_datetime (now env)) "" in
     to_excel env (df ++ [new_row]))
    (λ _, logger ERROR Failed_to_save_description).

(** What [df.loc[df['URL'] == url, 'Upload_Date'] = stamp] makes of a frame
    when it is accepted: every row of that URL gets the stamp. *)
Definition set_upload_date (u stamp : string) (df : list Row) : list Row :=
  (λ r, if decide (URL r = u)
        then mk_row (URL r) (Description r) (Download_Date r) stamp
        else r) <$> df.

(** The assignment itself: accepted, or a [TypeError] of the library. *)
Definition loc_assign (env : Env) (u stamp : string) (df : list Row) : Bot (list Row) :=
  if loc_takes env u df then mret (set_upload_date u stamp df) else raise TypeError.

Definition update_upload_date_in_excel (env : Env) (u : string) : Bot unit :=
  try_except
    (df ← read_excel env;
     df ← loc_assign env u (strftime_datetime (now env)) df;
     to_excel env df)
    (λ _, logger ERROR Failed_to_update_upload_date).

(** ** The download directory *)

(** [os.path.join(download_dir, file)]. *)
Definition path_join (dir file : string) : string := dir +:+ "/" +:+ file.

(** The name a video path has inside the download directory.  Video paths
    are the only paths the bot tests and removes; they are resolved there. *)
Definition video_name (video_path : string) : option string :=
  Str.strip_prefix (download_dir +:+ "/") video_path.

Definition path_exists (video_path : string) (w : World) : bool :=
  match video_name video_path with
  | Some file => bool_decide (file ∈ dir_listing w)
  | None => false
  end.

Definition os_remove (video_path : string) : Bot unit :=
  w ← get_world;
  match video_name video_path with
  | Some file =>
      put_world (mk_world (reels_json w) (used_json w) (daily_json w) (description_xlsx w)
                   (filter (λ f, f ≠ file) (dir_listing w)))
  | None => raise FileNotFoundError
  end.

(** [loader.download_post]: the files of the post appear in the directory;
    Instaloader leaves files that are already there. *)
Definition loader_download_post (env : Env) (shortcode : string) : Bot unit :=
  match download_post env shortcode with
  | None => raise InstaloaderException
  | Some files =>
      w ← get_world;
      put_world (mk_world (reels_json w) (used_json w) (daily_json w) (description_xlsx w)
                   (dir_listing w ++ filter (λ f, f ∉ dir_listing w) (remove_dups files)))
  end.

Definition Post_from_shortcode (env : Env) (shortcode : string) : Bot Post :=
  match from_shortcode env shortcode with
  | Some post => mret post
  | None => raise InstaloaderException
  end.

(** ** Fetching one reel *)

Definition shortcode_of (u : string) : string :=
  default "" (last (Str.split "/" (Str.rstrip "/" u))).

Definition extract_reel_info (env : Env) (u : string) : Bot (option ReelInfo) :=
  try_except
    (let shortcode := shortcode_of u in
     post ← Post_from_shortcode env shortcode;
     let description :=
       match caption post with
       | Some c => if decide (c = "") then "No description available" else c
       | None => "No description available"
       end in
     mret (Some (mk_info u description shortcode (is_video post))))
    (λ _, logger ERROR (Failed_to_extract_info u);; mret None).

Definition is_video_of (shortcode file : string) : bool :=
  Str.contains shortcode file && Str.endswith ".mp4" file.

Definition download_reel (env : Env) (u : string) : Bot (option BatchEntry) :=
  try_except
    (reel_info ← extract_reel_info env u;
     match reel_info with
     | None => logger WARNING (Skipping_not_a_video u);; mret None
     | Some info =>
         if negb (info_is_video info)
         then logger WARNING (Skipping_not_a_video u);; mret None
         else
           let shortcode := info_shortcode info in
           _ ← Post_from_shortcode env shortcode;
           loader_download_post env shortcode;;
           w ← get_world;
           match List.find (is_video_of shortcode) (dir_listing w) with
           | Some file =>
               save_description_to_excel env info;;
               logger INFO (Successfully_downloaded u);;
               mret (Some (mk_entry (path_join download_dir file) (info_description info) u))
           | None => mret None
           end
     end)
    (λ _, logger ERROR (Failed_to_download u);; mret None).

(** ** Publishing one reel *)

Definition client_clip_upload (env : Env) (video_path caption : string) : Bot unit :=
  if clip_upload env video_path caption then mret tt else raise ClientError.

Definition upload_reel (env : Env) (video_path descr u : string) : Bot bool :=
  try_except
    (client_clip_upload env video_path descr;;
     update_upload_date_in_excel env u;;
     logger INFO (Successfully_uploaded video_path);;
     w ← get_world;
     (if path_exists video_path w
      then os_remove video_path;; logger INFO (Deleted_video_file video_path)
      else mret tt);;
     mret true)
    (λ _, logger ERROR (Failed_to_upload video_path);; mret false).

(** ** The batch materializer *)

Definition daily_reels_file (env : Env) : string :=
  "daily_reels_" +:+ strftime_date (now env) +:+ ".json".

(** The loop [for url in selected_reels], with its accumulator. *)
Fixpoint download_each (env : Env) (downloaded_reels : list BatchEntry) (urls : list string)
  : Bot (list BatchEntry) :=
  match urls with
  | [] => mret downloaded_reels
  | u :: rest =>
      reel_data ← download_reel env u;
      download_each env
        (match reel_data with
         | Some e => downloaded_reels ++ [e]
         | None => downloaded_reels
         end) rest
  end.

Definition process_daily_reels (env : Env) : Bot (list BatchEntry) :=
  available_reels ← get_available_reels;
  if decide (length available_reels < daily_limit)%nat
  then logger WARNING (Not_enough_reels (length available_reels));; mret []
  else
    selected_reels ← random_sample env available_reels daily_limit;
    downloaded_reels ← download_each env [] selected_reels;
    used_reels ← load_json_file used_file used_json;
    save_json_file used_file used_store (used_reels ++ selected_reels);;
    save_json_file (daily_reels_file env) (daily_store (daily_reels_file env)) downloaded_reels;;
    logger INFO (Prepared_reels (length downloaded_reels));;
    mret downloaded_reels.

(** ** The upload drainer *)

Definition upload_next_reel (env : Env) : Bot unit :=
  let file := daily_reels_file env in
  w ← get_world;
  if daily_json w !! file is None
  then logger INFO No_reels_prepared
  else
    daily_reels ← load_json_file file (λ w, daily_json w !! file);
    match daily_reels with
    | [] => logger INFO All_reels_uploaded
    | reel_data :: rest =>
        success ← upload_reel env (file_path reel_data) (description reel_data) (url reel_data);
        if success : bool
        then save_json_file file (daily_store file) rest
        else save_json_file file (daily_store file) (reel_data :: rest)
    end.

(** ** The schedule *)

Inductive weekday :=
  | monday | tuesday | wednesday | thursday | friday | saturday | sunday.

Global Instance weekday_eq_dec : EqDecision weekday.
Proof. solve_decision. Defined.

(** The two methods that are bound to slots. *)
Inductive action := do_upload_next_reel | do_process_daily_reels.

Global Instance action_eq_dec : EqDecision action.
Proof. solve_decision. Defined.

(** A job of the [schedule] library: [every().<weekday>] or [every().day]
    (no start day), the [at] time and the bound method. *)
Record Job := mk_job {
  start_day : option weekday;
  at_time : string;
  job_func : action
}.

Definition every (d : weekday) (t : string) (f : action) : Job := mk_job (Some d) t f.
Definition every_day (t : string) (f : action) : Job := mk_job None t f.

Definition setup_schedule : list Job :=
  [ every monday "07:30" do_upload_next_reel;
    every monday "11:00" do_upload_next_reel;
    every monday "13:30" do_upload_next_reel;
    every monday "17:30" do_upload_next_reel;
    every monday "21:00" do_upload_next_reel;

    every tuesday "07:30" do_upload_next_reel;
    every tuesday "11:00" do_upload_next_reel;
    every tuesday "13:30" do_upload_next_reel;
    every tuesday "17:30" do_upload_next_reel;
    every tuesday "21:00" do_upload_next_reel;

    every wednesday "07:30" do_upload_next_reel;
    every wednesday "11:00" do_upload_next_reel;
    every wednesday "13:30" do_upload_next_reel;
    every wednesday "17:30" do_upload_next_reel;
    every wednesday "21:00" do_upload_next_reel;

    every thursday "07:30" do_upload_next_reel;
    every thursday "11:00" do_upload_next_reel;
    every thursday "13:30" do_upload_next_reel;
    every thursday "17:30" do_upload_next_reel;
    every thursday "21:00" do_upload_next_reel;

    every friday "07:30" do_upload_next_reel;
    every friday "11:00" do_upload_next_reel;
    every friday "13:30" do_upload_next_reel;
    every friday "17:30" do_upload_next_reel;
    every friday "21:00" do_upload_next_reel;

    every saturday "09:00" do_upload_next_reel;
    every saturday "12:00" do_upload_next_reel;
    every saturday "15:00" do_upload_next_reel;
    every saturday "18:30" do_upload_next_reel;
    every saturday "21:30" do_upload_next_reel;

    every sunday "09:00" do_upload_next_reel;
    every sunday "12:00" do_upload_next_reel;
    every sunday "15:00" do_upload_next_reel;
    every sunday "18:30" do_upload_next_reel;
    every sunday "21:30" do_upload_next_reel;

    every_day "00:01" do_process_daily_reels ].

(** A job is due on a day when it is a daily job or a job of that weekday. *)
Definition runs_on (d : weekday) (j : Job) : Prop :=
  start_day j = None ∨ start_day j = Some d.

Global Instance runs_on_dec d j : Decision (runs_on d j).
Proof. unfold runs_on. apply _. Defined.

(** The slot times of a day that are bound to the given method. *)
Definition slots (d : weekday) (f : action) : list string :=
  at_time <$> filter (λ j, runs_on d j ∧ job_func j = f) setup_schedule.

(** ** The process loop, as a sequence of due jobs *)

(** What [schedule.run_pending] does over time: the due jobs run one after
    the other, each with the answers the outside gives during that call; an
    exception that leaves a job ends the process. *)
Definition run_job (job : action * Env) : Bot unit :=
  match job.1 with
  | do_upload_next_reel => upload_next_reel job.2
  | do_process_daily_reels => process_daily_reels job.2;; mret tt
  end.

Fixpoint run_jobs (jobs : list (action * Env)) : Bot unit :=
  match jobs with
  | [] => mret tt
  | job :: rest => run_job job;; run_jobs rest
  end.

Definition drains (envs : list Env) : list (action * Env) :=
  (λ env, (do_upload_next_reel, env)) <$> envs.

(** ** The start of [run] *)

(** A log line of [run]: its own two, or one of a job it calls. *)
Inductive run_log :=
  | Starting_Instagram_Reel_Bot
  | Schedule_setup_complete
  | Job_log (r : LogRecord).

(** [run] up to its loop: the jobs it has registered, whether an exception
    left it, the files and the log. *)
Record Started := mk_started {
  scheduled : list Job;
  start_result : exn + unit;
  start_world : World;
  start_logs : list run_log
}.

(** [run] before [while True]: log, [setup_schedule], and a prepare call
    when the current date has no queue file. *)
Definition run_startup (env : Env) (w : World) : Started :=
  let o :=
    (if daily_json w !! daily_reels_file env is None
     then process_daily_reels env;; mret tt
     else mret tt) w in
  mk_started setup_schedule (returned o) (world o)
    (Starting_Instagram_Reel_Bot :: Schedule_setup_complete :: (Job_log <$> logs o)).

(** ** What the stores hold, as the methods read them *)

(** The list [load_json_file] yields for a store. *)
Definition stored {A} (f : option (json (list A))) : list A :=
  match f with
  | Some (Holds v) => v
  | _ => []
  end.

Definition all_items (w : World) : list string := stored (reels_json w).
Definition used_set (w : World) : list string := stored (used_json w).
Definition daily_queue (file : string) (w : World) : list BatchEntry :=
  stored (daily_json w !! file).
Definition ledger_rows (w : World) : list Row := default [] (description_xlsx w).

(** Number of occurrences of a reference in a list. *)
Definition occurrences (r : string) (l : list string) : nat :=
  length (filter (λ x, x = r) l).

(** A log line of [upload_reel] for the given video: one is written for
    every call of the publish collaborator. *)
Definition is_attempt (video_path : string) (r : LogRecord) : Prop :=
  r = mk_log INFO (Successfully_uploaded video_path) ∨
  r = mk_log ERROR (Failed_to_upload video_path).

Definition is_any_attempt (r : LogRecord) : Prop :=
  match msg r with
  | Successfully_uploaded _ | Failed_to_upload _ => True
  | _ => False
  end.

Global Instance is_any_attempt_dec r : Decision (is_any_attempt r).
Proof. unfold is_any_attempt. destruct (msg r); apply _. Defined.

(** What [get_available_reels] computes from the two stores. *)
Definition available (w : World) : list string :=
  filter (λ reel, reel ∉ used_set w) (all_items w).

(** The references [process_daily_reels] samples when the pool suffices. *)
Definition selected_reels (env : Env) (w : World) : list string :=
  draw (available w) daily_limit (randbelow env).

(** The directory once [upload_reel] has deleted the video, if it was there. *)
Definition without_video (p : string) (w : World) : list string :=
  match video_name p with
  | Some file =>
      if bool_decide (file ∈ dir_listing w)
      then filter (λ f, f ≠ file) (dir_listing w)
      else dir_listing w
  | None => dir_listing w
  end.

(** The error line [load_json_file] writes for a store. *)
Definition read_errors {A} (filename : string) (f : option (json (list A))) : list LogRecord :=
  if f is Some Malformed then [mk_log ERROR (Error_reading filename)] else [].

(** The result of a call that returned normally. *)
Definition result {A} (o : Outcome A) : option A :=
  match returned o with
  | inr a => Some a
  | inl _ => None
  end.

Definition is_weekend (d : weekday) : bool :=
  match d with
  | saturday | sunday => true
  | _ => false
  end.

(** ** What a fetch yields, in the words of the design *)

(** The text [extract_reel_info] takes for a post:
    [post.caption or "No description available"]. *)
Definition description_of (post : Post) : string :=
  match caption post with
  | Some c => if decide (c = "") then "No description available" else c
  | None => "No description available"
  end.

(** The download directory once the fetch of a reference has been tried:
    the files of a video post whose download succeeded are there. *)
Definition downloaded_files (env : Env) (dir : list string) (u : string) : list string :=
  match from_shortcode env (shortcode_of u) with
  | Some post =>
      if is_video post then
        match download_post env (shortcode_of u) with
        | Some files => dir ++ filter (λ f, f ∉ dir) (remove_dups files)
        | None => dir
        end
      else dir
  | None => dir
  end.

(** The entry a fetch of a reference yields.  The fetch succeeds when the
    post is found and is a video, its download goes through, and the
    directory then lists a file that is named with the shortcode and ends in
    [.mp4]; the first such file is the media of the entry. *)
Definition fetched (env : Env) (dir : list string) (u : string) : option BatchEntry :=
  match from_shortcode env (shortcode_of u) with
  | Some post =>
      if is_video post then
        match download_post env (shortcode_of u) with
        | Some _ =>
            match List.find (is_video_of (shortcode_of u)) (downloaded_files env dir u) with
            | Some file => Some (mk_entry (path_join download_dir file) (description_of post) u)
            | None => None
            end
        | None => None
        end
      else None
  | None => None
  end.

(** The successfully materialized entries of a list of references: one
    entry for every reference whose fetch succeeds, in the order of the
    list. *)
Fixpoint materialized (env : Env) (dir : list string) (urls : list string)
  : list BatchEntry :=
  match urls with
  | [] => []
  | u :: rest =>
      match fetched env dir u with
      | Some e => e :: materialized env (downloaded_files env dir u) rest
      | None => materialized env (downloaded_files env dir u) rest
      end
  end.

(** A fetch that is bound to succeed, whatever the directory holds: the
    post is a video and its download brings a file named with the shortcode
    and ending in [.mp4]. *)
Definition fetchable (env : Env) (u : string) : Prop :=
  ∃ post files file,
    from_shortcode env (shortcode_of u) = Some post ∧ is_video post = true ∧
    download_post env (shortcode_of u) = Some files ∧
    file ∈ files ∧ is_video_of (shortcode_of u) file = true.

(** ** Further notions used in the properties *)

(** The character occurs in the string. *)
Definition has_char (c : ascii) (s : string) : Prop := ∃ a b, s = a +:+ String c b.

(** The row [save_description_to_excel] appends for an entry. *)
Definition row_of_entry (env : Env) (e : BatchEntry) : Row :=
  mk_row (url e) (description e) (strftime_datetime (now env)) "".

(** The columns of a row that are written once. *)
Definition row_key (r : Row) : string * string * string :=
  (URL r, Description r, Download_Date r).

(** The ledger file once [save_description_to_excel] has run with the
    given row. *)
Definition appended_ledger (env : Env) (row : Row) (x : option (list Row))
  : option (list Row) :=
  match x with
  | None => None
  | Some sheet =>
      match df_to_excel env (pd_read_excel env sheet ++ [row]) with
      | Saved => Some (pd_read_excel env sheet ++ [row])
      | Refused partial => Some partial
      end
  end.

(** Whether that call wrote the sheet it meant to write. *)
Definition append_saved (env : Env) (row : Row) (x : option (list Row)) : bool :=
  match x with
  | None => false
  | Some sheet =>
      if df_to_excel env (pd_read_excel env sheet ++ [row]) is Saved then true else false
  end.

(** The ledger file once [update_upload_date_in_excel] has run for the
    reference. *)
Definition stamped_ledger (env : Env) (u : string) (x : option (list Row))
  : option (list Row) :=
  match x with
  | None => None
  | Some sheet =>
      let df := pd_read_excel env sheet in
      if loc_takes env u df then
        match df_to_excel env (set_upload_date u (strftime_datetime (now env)) df) with
        | Saved => Some (set_upload_date u (strftime_datetime (now env)) df)
        | Refused partial => Some partial
        end
      else Some sheet
  end.

(** Whether that call wrote the stamped sheet. *)
Definition stamp_saved (env : Env) (u : string) (x : option (list Row)) : bool :=
  match x with
  | None => false
  | Some sheet =>
      let df := pd_read_excel env sheet in
      loc_takes env u df &&
      if df_to_excel env (set_upload_date u (strftime_datetime (now env)) df) is Saved
      then true else false
  end.

(** A log line of an accepted publish. *)
Definition is_success (r : LogRecord) : Prop :=
  match msg r with
  | Successfully_uploaded _ => True
  | _ => False
  end.

Global Instance is_success_dec r : Decision (is_success r).
Proof. unfold is_success. destruct (msg r); apply _. Defined.

Definition successes (l : list LogRecord) : nat := length (filter is_success l).

(** [datetime.MAXYEAR], 9999. *)
Definition MAXYEAR : nat := 99 * 101.

(** A decimal numeral without leading zeros. *)
Definition numeral (s : string) : Prop :=
  s = "0" ∨ ∃ c t, s = String c t ∧ c ≠ "0"%char.

(** ** Sample states and collaborators *)

Definition entry_A : BatchEntry :=
  mk_entry "downloaded_reels/2024-03-04_CA1.mp4" "caption A" "https://x.test/reel/CA1/".

Definition entry_B : BatchEntry :=
  mk_entry "downloaded_reels/2024-03-04_CB2.mp4" "caption B" "https://x.test/reel/CB2/".

Definition row_A : Row :=
  mk_row "https://x.test/reel/CA1/" "caption A" "2024-03-04 00:01:00" "".

Definition row_B : Row :=
  mk_row "https://x.test/reel/CB2/" "caption B" "2024-03-04 00:01:00" "".

(** 4 March 2024 is a Monday. *)
Definition midnight : datetime := mk_datetime 2024 3 4 0 1 0.
Definition monday_evening : datetime := mk_datetime 2024 3 4 21 0 0.
Definition tuesday_prepare : datetime := mk_datetime 2024 3 5 0 1 0.
Definition tuesday_morning : datetime := mk_datetime 2024 3 5 7 30 0.

(** Monday's queue holds one entry; its reference is used, its row and its
    video are there. *)
Definition world_A : World :=
  mk_world (Some (Holds ["https://x.test/reel/CA1/"; "https://x.test/reel/CB2/"]))
    (Some (Holds ["https://x.test/reel/CA1/"]))
    {[ "daily_reels_2024-03-04.json" := Holds [entry_A] ]}
    (Some [row_A])
    ["2024-03-04_CA1.mp4"].

(** Monday's queue holds two entries. *)
Definition world_AB : World :=
  mk_world (Some (Holds ["https://x.test/reel/CA1/"; "https://x.test/reel/CB2/"]))
    (Some (Holds ["https://x.test/reel/CA1/"; "https://x.test/reel/CB2/"]))
    {[ "daily_reels_2024-03-04.json" := Holds [entry_A; entry_B] ]}
    (Some [row_A; row_B])
    ["2024-03-04_CA1.mp4"; "2024-03-04_CB2.mp4"].

(** The ledger has a row for B only. *)
Definition world_A_without_row : World :=
  mk_world (Some (Holds ["https://x.test/reel/CA1/"; "https://x.test/reel/CB2/"]))
    (Some (Holds ["https://x.test/reel/CA1/"]))
    {[ "daily_reels_2024-03-04.json" := Holds [entry_A] ]}
    (Some [row_B])
    ["2024-03-04_CA1.mp4"].

Definition ten_references : list string :=
  (λ c, "https://x.test/reel/C" +:+ c +:+ "/") <$>
    ["a"; "b"; "c"; "d"; "e"; "f"; "g"; "h"; "i"; "j"].

(** The state after [initialize_files] in a directory that holds only
    [reels.json]. *)
Definition fresh_world (reels : list string) : World :=
  mk_world (Some (Holds reels)) (Some (Holds [])) ∅ (Some []) [].

(** Every collaborator on the network raises; the spreadsheet library reads
    back what was written and takes every text. *)
Definition offline (t : datetime) : Env :=
  mk_env t [] (λ _, None) (λ _, None) (λ _ _, false)
    (λ sheet, sheet) (λ _ _, true) (λ _, Saved).

(** Every collaborator answers; each post is a video whose file carries the
    shortcode. *)
Definition online (t : datetime) (rs : list nat) : Env :=
  mk_env t rs (λ _, Some (mk_post (Some "caption") true)) (λ s, Some [s +:+ ".mp4"])
    (λ _ _, true)
    (λ sheet, sheet) (λ _ _, true) (λ _, Saved).

(** As [online], with a spreadsheet library that reads a column of blank
    cells as numbers and refuses a text in it: the timestamp is taken only
    when some row has an upload date already. *)
Definition numeric_blanks (t : datetime) (rs : list nat) : Env :=
  mk_env t rs (λ _, Some (mk_post (Some "caption") true)) (λ s, Some [s +:+ ".mp4"])
    (λ _ _, true)
    (λ sheet, sheet)
    (λ _ df, bool_decide (Exists (λ r, Upload_Date r ≠ "") df))
    (λ _, Saved).

(** A mixed batch: post [Cc] cannot be looked up, post [Cd] is a picture,
    the download of [Ce] breaks. *)
Definition patchy (t : datetime) (rs : list nat) : Env :=
  mk_env t rs
    (λ s, if decide (s = "Cc") then None
          else Some (mk_post (Some "caption") (bool_decide (s ≠ "Cd"))))
    (λ s, if decide (s = "Ce") then None else Some [s +:+ ".jpg"; "2024_" +:+ s +:+ ".mp4"])
    (λ _ _, true)
    (λ sheet, sheet) (λ _ _, true) (λ _, Saved).

(** ** Further sample states *)

Definition monday_batch : list BatchEntry :=
  (λ c, mk_entry ("downloaded_reels/C" +:+ c +:+ ".mp4") "caption"
          ("https://x.test/reel/C" +:+ c +:+ "/")) <$> ["a"; "b"; "c"; "d"; "e"].


(** The files after Monday's prepare call: five references used, their
    entries queued. *)
Definition world_monday : World :=
  world (process_daily_reels (online midnight []) (fresh_world ten_references)).

(** [used.json] holds text that is not JSON. *)
Definition world_damaged : World :=
  mk_world (Some (Holds ten_references)) (Some Malformed) ∅ (Some []) [].

(** * Properties *)

Arguments strftime_datetime : simpl never.
Arguments strftime_date : simpl never.
Arguments shortcode_of : simpl never.
Arguments is_video_of : simpl never.
Arguments daily_reels_file : simpl never.
Arguments path_exists : simpl never.
Arguments path_join : simpl never.

(** ** The string and clock helpers on sample inputs *)

Example rstrip_url : Str.rstrip "/" "https://x.test/reel/Cabc//" = "https://x.test/reel/Cabc".
Proof. reflexivity. Qed.

Example rstrip_all : Str.rstrip "/" "///" = "".
Proof. reflexivity. Qed.

Example split_url :
  Str.split "/" "https://x.test/reel/Cabc" = ["https:"; ""; "x.test"; "reel"; "Cabc"].
Proof. reflexivity. Qed.

Example contains_mid : Str.contains "Cabc" "2024_Cabc_1.mp4" = true.
Proof. reflexivity. Qed.

Example contains_not : Str.contains "Cabd" "2024_Cabc_1.mp4" = false.
Proof. reflexivity. Qed.

Example endswith_mp4 : Str.endswith ".mp4" "2024_Cabc_1.mp4" = true.
Proof. reflexivity. Qed.

Example endswith_jpg : Str.endswith ".mp4" "2024_Cabc_1.jpg" = false.
Proof. reflexivity. Qed.

Example zpad_two : Str.zpad 2 7 = "07".
Proof. reflexivity. Qed.

Example strftime_sample :
  strftime_datetime (mk_datetime 2024 3 9 7 30 0) = "2024-03-09 07:30:00".
Proof. reflexivity. Qed.

Lemma append_cons_nonempty (a : string) (c : ascii) (s : string) : a +:+ String c s ≠ "".
Proof. by destruct a. Qed.

Lemma strftime_datetime_nonempty t : strftime_datetime t ≠ "".
Proof. unfold strftime_datetime. apply append_cons_nonempty. Qed.

Lemma strip_prefix_app pre s : Str.strip_prefix pre (pre +:+ s) = Some s.
Proof. induction pre as [|a pre IH]; simpl; [done|]. by rewrite decide_True. Qed.

(** ** Running the monad *)

Ltac bot_unfold :=
  unfold mbind, mret, Bot_bind, Bot_ret, try_except, raise, logger, get_world, put_world in *.

Ltac bot_simpl := bot_unfold; cbn in *.

Lemma load_json_file_run {A} filename (f : World → option (json (list A))) w :
  load_json_file filename f w = mk_outcome (inr (stored (f w))) w (read_errors filename (f w)).
Proof.
  unfold load_json_file, stored, read_errors. bot_simpl.
  destruct (f w) as [[|v]|]; reflexivity.
Qed.

Lemma get_available_reels_run w :
  get_available_reels w =
    mk_outcome (inr (available w)) w
      (read_errors reels_file (reels_json w) ++ read_errors used_file (used_json w) ++ []).
Proof.
  unfold get_available_reels. bot_unfold.
  rewrite !load_json_file_run. reflexivity.
Qed.

(** ** Sampling *)

Lemma draw_length {A} (k : nat) : ∀ (pool : list A) rs,
  k ≤ length pool → length (draw pool k rs) = k.
Proof.
  induction k as [|k IH]; intros pool rs Hk; [done|].
  simpl.
  assert (Hj : hd 0 rs `mod` length pool < length pool)
    by (apply Nat.mod_upper_bound; lia).
  destruct (lookup_lt_is_Some_2 pool _ Hj) as [x Hx]. rewrite Hx. simpl.
  rewrite IH; [done|]. rewrite length_delete; [lia|eauto].
Qed.

Lemma draw_submseteq {A} (k : nat) : ∀ (pool : list A) rs, draw pool k rs ⊆+ pool.
Proof.
  induction k as [|k IH]; intros pool rs; simpl; [apply submseteq_nil_l|].
  destruct (pool !! _) as [x|] eqn:Hx; [|apply submseteq_nil_l].
  trans (x :: delete (hd 0 rs `mod` length pool) pool).
  - apply submseteq_skip, IH.
  - apply Permutation_submseteq. symmetry. by apply delete_Permutation.
Qed.

Lemma submseteq_NoDup {A} (l k : list A) : l ⊆+ k → NoDup k → NoDup l.
Proof.
  intros Hsub Hk. apply submseteq_Permutation in Hsub as [k' Hk'].
  rewrite Hk' in Hk. by apply NoDup_app in Hk as [? _].
Qed.

Lemma selected_reels_length env w :
  daily_limit ≤ length (available w) → length (selected_reels env w) = daily_limit.
Proof. apply draw_length. Qed.

Lemma selected_reels_submseteq env w : selected_reels env w ⊆+ available w.
Proof. apply draw_submseteq. Qed.

(** Distinct positions, not distinct strings: from a pool that lists a
    reference twice the sample may hold it twice. *)
Example sample_of_duplicates_may_repeat :
  draw ["u/a"; "u/a"; "u/b"; "u/c"; "u/d"; "u/e"] 5 [] = ["u/a"; "u/a"; "u/b"; "u/c"; "u/d"].
Proof. reflexivity. Qed.

Example sample_follows_the_draws :
  draw ["u/a"; "u/b"; "u/c"; "u/d"; "u/e"; "u/f"] 5 [7; 1; 1; 0; 9]
    = ["u/b"; "u/c"; "u/d"; "u/a"; "u/f"].
Proof. reflexivity. Qed.

(** ** Fetching *)

Lemma path_exists_join file w :
  path_exists (path_join download_dir file) w = bool_decide (file ∈ dir_listing w).
Proof. reflexivity. Qed.

Lemma path_exists_mono p w w' :
  dir_listing w ⊆ dir_listing w' → path_exists p w = true → path_exists p w' = true.
Proof.
  unfold path_exists. intros Hsub. destruct (video_name p) as [file|]; [|done].
  rewrite !bool_decide_eq_true. apply Hsub.
Qed.

(** *** The ledger calls *)

Lemma save_description_to_excel_run env info w :
  save_description_to_excel env info w =
    mk_outcome (inr tt)
      (mk_world (reels_json w) (used_json w) (daily_json w)
         (appended_ledger env
            (mk_row (info_url info) (info_description info) (strftime_datetime (now env)) "")
            (description_xlsx w))
         (dir_listing w))
      (if append_saved env
            (mk_row (info_url info) (info_description info) (strftime_datetime (now env)) "")
            (description_xlsx w)
       then [] else [mk_log ERROR Failed_to_save_description]).
Proof.
  unfold save_description_to_excel, read_excel, to_excel, ledger_store, appended_ledger,
    append_saved.
  bot_unfold. destruct w as [r us d [sheet|] dir]; cbn; [|done].
  by destruct (df_to_excel env _).
Qed.

Lemma update_upload_date_in_excel_run env u w :
  update_upload_date_in_excel env u w =
    mk_outcome (inr tt)
      (mk_world (reels_json w) (used_json w) (daily_json w)
         (stamped_ledger env u (description_xlsx w)) (dir_listing w))
      (if stamp_saved env u (description_xlsx w)
       then [] else [mk_log ERROR Failed_to_update_upload_date]).
Proof.
  unfold update_upload_date_in_excel, read_excel, loc_assign, to_excel, ledger_store,
    stamped_ledger, stamp_saved.
  bot_unfold. destruct w as [r us d [sheet|] dir]; cbn; [|done].
  destruct (loc_takes env u _); cbn; [|done].
  by destruct (df_to_excel env _).
Qed.

Arguments save_description_to_excel : simpl never.
Arguments update_upload_date_in_excel : simpl never.

(** *** One fetch *)

Lemma downloaded_files_subseteq env dir u : dir ⊆ downloaded_files env dir u.
Proof.
  unfold downloaded_files.
  destruct (from_shortcode env _) as [post|]; [|done].
  destruct (is_video post); [|done].
  destruct (download_post env _); [|done]. by apply list_subseteq_app_l.
Qed.

Lemma fetched_Some env dir u e :
  fetched env dir u = Some e →
  url e = u ∧
  ∃ post files file,
    from_shortcode env (shortcode_of u) = Some post ∧ is_video post = true ∧
    download_post env (shortcode_of u) = Some files ∧
    description e = description_of post ∧
    file_path e = path_join download_dir file ∧
    file ∈ downloaded_files env dir u ∧
    is_video_of (shortcode_of u) file = true.
Proof.
  unfold fetched.
  destruct (from_shortcode env _) as [post|] eqn:Hpost; [|done].
  destruct (is_video post) eqn:Hvid; [|done].
  destruct (download_post env _) as [files|] eqn:Hdl; [|done].
  destruct (List.find _ _) as [file|] eqn:Hfind; [|done].
  intros [= <-]. cbn. split; [done|].
  apply find_some in Hfind as [Hin Hfile]. apply list_elem_of_In in Hin.
  exists post, files, file. by split_and!.
Qed.

Lemma fetchable_fetched env dir u : fetchable env u → is_Some (fetched env dir u).
Proof.
  intros (post & files & file & Hpost & Hvid & Hdl & Hin & Hfile).
  unfold fetched. rewrite Hpost, Hvid, Hdl.
  destruct (List.find _ _) as [file'|] eqn:Hfind; [by eexists|].
  exfalso. assert (In file (downloaded_files env dir u)) as Hthere.
  { apply list_elem_of_In. unfold downloaded_files. rewrite Hpost, Hvid, Hdl.
    destruct (decide (file ∈ dir)) as [Hdir|Hdir]; apply elem_of_app; [by left|right].
    apply list_elem_of_filter. split; [done|]. by apply elem_of_remove_dups. }
  pose proof (find_none _ _ Hfind file Hthere) as Hno. congruence.
Qed.

Lemma download_reel_spec env u w :
  ∃ r w' l, download_reel env u w = mk_outcome (inr r) w' l ∧
  reels_json w' = reels_json w ∧
  used_json w' = used_json w ∧
  daily_json w' = daily_json w ∧
  dir_listing w' = downloaded_files env (dir_listing w) u ∧
  r = fetched env (dir_listing w) u ∧
  description_xlsx w' =
    match r with
    | Some e => appended_ledger env (row_of_entry env e) (description_xlsx w)
    | None => description_xlsx w
    end ∧
  (mk_log ERROR Failed_to_save_description ∈ l ↔
     ∃ e, r = Some e ∧ append_saved env (row_of_entry env e) (description_xlsx w) = false).
Proof.
  assert (∀ l : list LogRecord,
            (mk_log ERROR Failed_to_save_description ∈ l → False) →
            mk_log ERROR Failed_to_save_description ∈ l ↔
            ∃ e, @None BatchEntry = Some e ∧
                 append_saved env (row_of_entry env e) (description_xlsx w) = false) as Hquiet.
  { intros l Hl. split; [by intros ?%Hl|by intros (e & ? & _)]. }
  unfold download_reel, extract_reel_info, Post_from_shortcode, loader_download_post,
    fetched, downloaded_files.
  destruct (from_shortcode env (shortcode_of u)) as [[cap vid]|] eqn:Hpost; bot_simpl.
  2: { eexists _, _, _. split; [reflexivity|]. split_and!; try done. apply Hquiet.
       intros Hin. repeat (apply elem_of_cons in Hin as [Hin|Hin]; [done|]).
       by apply elem_of_nil in Hin. }
  destruct vid; cbn.
  2: { eexists _, _, _. split; [reflexivity|]. split_and!; try done. apply Hquiet.
       intros Hin. repeat (apply elem_of_cons in Hin as [Hin|Hin]; [done|]).
       by apply elem_of_nil in Hin. }
  rewrite Hpost.
  destruct (download_post env (shortcode_of u)) as [files|] eqn:Hdl; cbn.
  2: { eexists _, _, _. split; [reflexivity|]. split_and!; try done. apply Hquiet.
       intros Hin. repeat (apply elem_of_cons in Hin as [Hin|Hin]; [done|]).
       by apply elem_of_nil in Hin. }
  match goal with
  | |- context [List.find ?f ?l] => destruct (List.find f l) as [file|] eqn:Hfind
  end; cbn.
  2: { eexists _, _, _. split; [reflexivity|]. split_and!; try done. apply Hquiet.
       intros Hin. by apply elem_of_nil in Hin. }
  rewrite save_description_to_excel_run. cbn.
  eexists _, _, _. split; [reflexivity|]. split_and!; try done.
  match goal with
  | |- _ ↔ ∃ e, Some ?E = Some e ∧ _ =>
      trans (append_saved env (row_of_entry env E) (description_xlsx w) = false);
        [|split; [intros Hsave; by exists E|by intros (e & [= <-] & Hsave)]]
  end.
  unfold row_of_entry. cbn.
  destruct (append_saved env _ (description_xlsx w)); cbn; split; try done.
  - intros Hin. repeat (apply elem_of_cons in Hin as [Hin|Hin]; [done|]).
    by apply elem_of_nil in Hin.
  - intros _. apply list_elem_of_here.
Qed.

(** *** The fetches of a batch *)

Lemma materialized_sublist env urls : ∀ dir,
  url <$> materialized env dir urls `sublist_of` urls.
Proof.
  induction urls as [|u urls IH]; intros dir; [done|]. cbn.
  destruct (fetched env dir u) as [e|] eqn:He.
  - apply fetched_Some in He as [<- _]. cbn. apply sublist_skip, IH.
  - apply sublist_cons, IH.
Qed.

Lemma materialized_all env urls : ∀ dir,
  Forall (fetchable env) urls → url <$> materialized env dir urls = urls.
Proof.
  induction urls as [|u urls IH]; intros dir Hall; [done|].
  apply Forall_cons in Hall as [Hu Hall]. cbn.
  destruct (fetchable_fetched env dir u Hu) as [e He]. rewrite He. cbn.
  apply fetched_Some in He as [-> _]. f_equal. by apply IH.
Qed.

Lemma materialized_elem env u urls : ∀ dir,
  u ∈ urls → fetchable env u → u ∈ url <$> materialized env dir urls.
Proof.
  induction urls as [|u' urls IH]; intros dir Hin Hu; [by inversion Hin|]. cbn.
  apply elem_of_cons in Hin as [<-|Hin].
  - destruct (fetchable_fetched env dir u Hu) as [e He]. rewrite He. cbn.
    apply fetched_Some in He as [-> _]. apply list_elem_of_here.
  - destruct (fetched env dir u') as [e|]; cbn; [apply list_elem_of_further|]; by apply IH.
Qed.

Lemma materialized_fetched env e urls : ∀ dir,
  e ∈ materialized env dir urls →
  url e ∈ urls ∧
  ∃ post files,
    from_shortcode env (shortcode_of (url e)) = Some post ∧ is_video post = true ∧
    download_post env (shortcode_of (url e)) = Some files ∧
    description e = description_of post.
Proof.
  induction urls as [|u urls IH]; intros dir; cbn; [by inversion 1|].
  assert (e ∈ materialized env (downloaded_files env dir u) urls →
          url e ∈ u :: urls ∧
          ∃ post files,
            from_shortcode env (shortcode_of (url e)) = Some post ∧ is_video post = true ∧
            download_post env (shortcode_of (url e)) = Some files ∧
            description e = description_of post) as Hrest.
  { intros [Hin Hpost]%IH. split; [by apply list_elem_of_further|done]. }
  destruct (fetched env dir u) as [e'|] eqn:He; [|done].
  intros [->|Hin]%elem_of_cons; [|by apply Hrest].
  apply fetched_Some in He as (<- & post & files & file & Hpost & Hvid & Hdl & Hdesc & _).
  split; [apply list_elem_of_here|]. by exists post, files.
Qed.

Lemma download_each_spec env urls : ∀ acc w,
  ∃ batch w' l, download_each env acc urls w = mk_outcome (inr (acc ++ batch)) w' l ∧
  reels_json w' = reels_json w ∧
  used_json w' = used_json w ∧
  daily_json w' = daily_json w ∧
  dir_listing w ⊆ dir_listing w' ∧
  url <$> batch `sublist_of` urls ∧
  Forall (λ e, path_exists (file_path e) w' = true) batch ∧
  batch = materialized env (dir_listing w) urls.
Proof.
  induction urls as [|u urls IH]; intros acc w.
  - exists [], w, []. rewrite app_nil_r. by split_and!.
  - cbn [download_each materialized]. bot_unfold.
    destruct (download_reel_spec env u w)
      as (r & w1 & l1 & -> & Hr & Hu & Hd & Hdir & He & _).
    destruct (IH (match r with Some e => acc ++ [e] | None => acc end) w1)
      as (batch & w2 & l2 & -> & Hr2 & Hu2 & Hd2 & Hdir2 & Hsub & Hall & Hbatch).
    rewrite Hdir in Hbatch. rewrite <- He.
    pose proof (downloaded_files_subseteq env (dir_listing w) u) as Hgrow.
    rewrite <- Hdir in Hgrow.
    destruct r as [e|].
    + exists (e :: batch), w2, (l1 ++ l2). rewrite <- app_assoc. cbn.
      symmetry in He.
      apply fetched_Some in He as (Hurl & post & files & file & _ & _ & _ & _ & Hp & Hin & _).
      split_and!; try congruence.
      * by trans (dir_listing w1).
      * rewrite Hurl. by apply sublist_skip.
      * constructor; [|done]. apply (path_exists_mono _ w1); [done|].
        rewrite Hp, path_exists_join. apply bool_decide_eq_true. by rewrite Hdir.
    + exists batch, w2, (l1 ++ l2).
      split_and!; try congruence.
      * by trans (dir_listing w1).
      * by apply sublist_cons.
Qed.

(** ** What a prepare call does *)

Lemma process_daily_reels_short env w :
  length (available w) < daily_limit →
  process_daily_reels env w =
    mk_outcome (inr []) w
      ((read_errors reels_file (reels_json w) ++ read_errors used_file (used_json w) ++ []) ++
       [mk_log WARNING (Not_enough_reels (length (available w)))] ++ []).
Proof.
  intros Hlt. unfold process_daily_reels. bot_unfold.
  rewrite get_available_reels_run. rewrite decide_True by done. reflexivity.
Qed.

Lemma process_daily_reels_full env w :
  daily_limit ≤ length (available w) →
  ∃ batch w1 l,
    download_each env [] (selected_reels env w) w = mk_outcome (inr batch) w1 l ∧
    returned (process_daily_reels env w) = inr batch ∧
    world (process_daily_reels env w) =
      mk_world (reels_json w) (Some (Holds (used_set w ++ selected_reels env w)))
        (<[daily_reels_file env := Holds batch]> (daily_json w))
        (description_xlsx w1) (dir_listing w1) ∧
    mk_log INFO (Prepared_reels (length batch)) ∈ logs (process_daily_reels env w).
Proof.
  intros Hge. unfold process_daily_reels, random_sample. bot_unfold.
  rewrite get_available_reels_run. rewrite decide_False by lia.
  rewrite decide_True by done.
  destruct (download_each_spec env (selected_reels env w) [] w)
    as (batch & w1 & l & Hrun & Hr & Hu & Hd & _).
  rewrite app_nil_l in Hrun. unfold selected_reels in Hrun. rewrite Hrun. exists batch, w1, l.
  fold (selected_reels env w).
  unfold save_json_file, used_store, daily_store. bot_unfold.
  rewrite load_json_file_run. cbn -[draw daily_limit].
  rewrite Hr, Hu, Hd. split_and!; try done.
  set_solver.
Qed.

Lemma process_daily_reels_queues env w :
  daily_limit ≤ length (available w) →
  ∃ batch,
    returned (process_daily_reels env w) = inr batch ∧
    daily_json (world (process_daily_reels env w)) =
      <[daily_reels_file env := Holds batch]> (daily_json w) ∧
    batch = materialized env (dir_listing w) (selected_reels env w).
Proof.
  intros Hge.
  destruct (process_daily_reels_full env w Hge) as (batch & w1 & l & Hrun & -> & -> & _).
  destruct (download_each_spec env (selected_reels env w) [] w)
    as (batch' & w1' & l' & Hrun' & _ & _ & _ & _ & _ & _ & Hbatch).
  rewrite Hrun in Hrun'. injection Hrun' as <- <- <-.
  exists batch. by split_and!.
Qed.

Lemma process_daily_reels_cases env w :
  ∃ batch w' l, process_daily_reels env w = mk_outcome (inr batch) w' l ∧
    reels_json w' = reels_json w ∧
    used_set w `prefix_of` used_set w'.
Proof.
  destruct (decide (length (available w) < daily_limit)) as [Hlt|Hge].
  - rewrite process_daily_reels_short by done. eexists _, _, _. split; [reflexivity|]. done.
  - destruct (process_daily_reels_full env w) as (batch & w1 & l & _ & Hret & Hw & _); [lia|].
    destruct (process_daily_reels env w) as [r w' l'] eqn:E. cbn in *. subst.
    eexists _, _, _. split; [reflexivity|]. cbn. split; [done|].
    unfold used_set at 2. cbn. by apply prefix_app_r.
Qed.

(** ** What a drain call does *)

Lemma upload_next_reel_absent env w :
  daily_json w !! daily_reels_file env = None →
  upload_next_reel env w = mk_outcome (inr tt) w [mk_log INFO No_reels_prepared].
Proof. intros H. unfold upload_next_reel. bot_unfold. rewrite H. reflexivity. Qed.

Lemma upload_next_reel_nothing env w body :
  daily_json w !! daily_reels_file env = Some body →
  stored (Some body) = [] →
  upload_next_reel env w =
    mk_outcome (inr tt) w
      (read_errors (daily_reels_file env) (Some body) ++ [mk_log INFO All_reels_uploaded]).
Proof.
  intros H Hempty. unfold upload_next_reel. bot_unfold. rewrite H.
  rewrite load_json_file_run, H, Hempty. reflexivity.
Qed.

Lemma upload_reel_failure env p d u w :
  clip_upload env p d = false →
  upload_reel env p d u w = mk_outcome (inr false) w [mk_log ERROR (Failed_to_upload p)].
Proof.
  intros H. unfold upload_reel, client_clip_upload. rewrite H. reflexivity.
Qed.

Lemma upload_reel_success env p d u w :
  clip_upload env p d = true →
  ∃ l, upload_reel env p d u w =
    mk_outcome (inr true)
      (mk_world (reels_json w) (used_json w) (daily_json w)
         (stamped_ledger env u (description_xlsx w))
         (without_video p w)) l ∧
    filter is_any_attempt l = [mk_log INFO (Successfully_uploaded p)].
Proof.
  intros H. unfold upload_reel, client_clip_upload, os_remove, without_video, path_exists.
  rewrite H. bot_unfold. rewrite update_upload_date_in_excel_run. cbn.
  destruct (stamp_saved env u (description_xlsx w)); cbn.
  all: destruct (video_name p) as [file|]; cbn.
  all: try destruct (bool_decide (file ∈ dir_listing w)) eqn:Hin; cbn.
  all: eexists; split; reflexivity.
Qed.

(** The one ledger error line of an accepted publish: there when the stamped
    sheet was not written. *)
Lemma upload_reel_ledger_error env p d u w :
  clip_upload env p d = true →
  mk_log ERROR Failed_to_update_upload_date ∈ logs (upload_reel env p d u w) ↔
  stamp_saved env u (description_xlsx w) = false.
Proof.
  intros H. unfold upload_reel, client_clip_upload, os_remove, path_exists.
  rewrite H. bot_unfold. rewrite update_upload_date_in_excel_run. cbn.
  destruct (stamp_saved env u (description_xlsx w)); cbn.
  all: destruct (video_name p) as [file|]; cbn.
  all: try destruct (bool_decide (file ∈ dir_listing w)); cbn.
  all: split; try done; try (intros _; apply list_elem_of_here).
  all: intros Hin; repeat (apply elem_of_cons in Hin as [Hin|Hin]; [done|]).
  all: by apply elem_of_nil in Hin.
Qed.

Lemma path_exists_without_video p w w' :
  dir_listing w' = without_video p w → path_exists p w' = false.
Proof.
  unfold path_exists, without_video. intros ->.
  destruct (video_name p) as [file|]; [|done].
  destruct (bool_decide (file ∈ dir_listing w)) eqn:Hin.
  - apply bool_decide_eq_false. rewrite list_elem_of_filter. intros [Hne _]. by apply Hne.
  - done.
Qed.

Lemma upload_next_reel_failure env w e q :
  daily_json w !! daily_reels_file env = Some (Holds (e :: q)) →
  clip_upload env (file_path e) (description e) = false →
  upload_next_reel env w =
    mk_outcome (inr tt) w [mk_log ERROR (Failed_to_upload (file_path e))].
Proof.
  intros H Hfail. unfold upload_next_reel. bot_unfold. rewrite H.
  rewrite load_json_file_run, H. cbn.
  rewrite upload_reel_failure by done. unfold save_json_file, daily_store. bot_unfold. cbn.
  rewrite insert_id by done. by destruct w.
Qed.

Lemma upload_next_reel_success env w e q :
  daily_json w !! daily_reels_file env = Some (Holds (e :: q)) →
  clip_upload env (file_path e) (description e) = true →
  ∃ l, upload_next_reel env w =
    mk_outcome (inr tt)
      (mk_world (reels_json w) (used_json w)
         (<[daily_reels_file env := Holds q]> (daily_json w))
         (stamped_ledger env (url e) (description_xlsx w))
         (without_video (file_path e) w)) l ∧
    filter is_any_attempt l = [mk_log INFO (Successfully_uploaded (file_path e))].
Proof.
  intros H Hok. unfold upload_next_reel. bot_unfold. rewrite H.
  rewrite load_json_file_run, H. cbn.
  destruct (upload_reel_success env _ _ (url e) w Hok) as (l & -> & Hl).
  unfold save_json_file, daily_store. bot_unfold. cbn. eexists. split; [reflexivity|].
  rewrite !filter_app, Hl. reflexivity.
Qed.

Lemma upload_next_reel_ledger_error env w e q :
  daily_json w !! daily_reels_file env = Some (Holds (e :: q)) →
  clip_upload env (file_path e) (description e) = true →
  mk_log ERROR Failed_to_update_upload_date ∈ logs (upload_next_reel env w) ↔
  stamp_saved env (url e) (description_xlsx w) = false.
Proof.
  intros H Hok.
  rewrite <- (upload_reel_ledger_error env (file_path e) (description e) (url e) w Hok).
  unfold upload_next_reel. bot_unfold. rewrite H.
  rewrite load_json_file_run, H. cbn.
  destruct (upload_reel_success env _ _ (url e) w Hok) as (l & -> & _).
  unfold save_json_file. bot_unfold. cbn. by rewrite app_nil_r.
Qed.

(** A drain call hands to the publish collaborator the head of the queue
    of its own date, and nothing else. *)
Lemma upload_next_reel_attempts env w r :
  r ∈ logs (upload_next_reel env w) → is_any_attempt r →
  ∃ e q, daily_json w !! daily_reels_file env = Some (Holds (e :: q)) ∧
         is_attempt (file_path e) r.
Proof.
  destruct (daily_json w !! daily_reels_file env) as [[|[|e q]]|] eqn:Hfile.
  - rewrite (upload_next_reel_nothing _ _ _ Hfile eq_refl). cbn.
    intros Hin. repeat (apply elem_of_cons in Hin as [->|Hin]; [done|]).
    by apply elem_of_nil in Hin.
  - rewrite (upload_next_reel_nothing _ _ _ Hfile eq_refl). cbn.
    intros Hin. repeat (apply elem_of_cons in Hin as [->|Hin]; [done|]).
    by apply elem_of_nil in Hin.
  - intros Hin Hatt. exists e, q. split; [done|].
    destruct (clip_upload env (file_path e) (description e)) eqn:Hup.
    + destruct (upload_next_reel_success _ _ _ _ Hfile Hup) as (l & Hrun & Hl).
      rewrite Hrun in Hin. cbn in Hin.
      assert (r ∈ filter is_any_attempt l) as Hr by (by apply list_elem_of_filter).
      rewrite Hl in Hr. apply list_elem_of_singleton in Hr as ->. by left.
    + rewrite (upload_next_reel_failure _ _ _ _ Hfile Hup) in Hin. cbn in Hin.
      apply list_elem_of_singleton in Hin as ->. by right.
  - rewrite (upload_next_reel_absent _ _ Hfile). cbn.
    intros ->%list_elem_of_singleton. done.
Qed.

Ltac attempt_count :=
  unfold read_errors; cbn [app];
  repeat (rewrite filter_cons; cbn); rewrite ?filter_nil;
  repeat case_decide; try done; cbn; lia.

Lemma upload_next_reel_cases env w :
  ∃ w' l, upload_next_reel env w = mk_outcome (inr tt) w' l ∧
    reels_json w' = reels_json w ∧
    used_json w' = used_json w ∧
    (∀ f, f ≠ daily_reels_file env → daily_json w' !! f = daily_json w !! f) ∧
    (daily_queue (daily_reels_file env) w' = daily_queue (daily_reels_file env) w ∨
     ∃ e, daily_queue (daily_reels_file env) w = e :: daily_queue (daily_reels_file env) w') ∧
    length (filter is_any_attempt l) ≤ 1.
Proof.
  destruct (daily_json w !! daily_reels_file env) as [[|[|e q]]|] eqn:Hfile.
  - rewrite (upload_next_reel_nothing _ _ _ Hfile eq_refl).
    eexists _, _. split; [reflexivity|]. split_and!; try done; try (by left); attempt_count.
  - rewrite (upload_next_reel_nothing _ _ _ Hfile eq_refl).
    eexists _, _. split; [reflexivity|]. split_and!; try done; try (by left); attempt_count.
  - destruct (clip_upload env (file_path e) (description e)) eqn:Hup.
    + destruct (upload_next_reel_success _ _ _ _ Hfile Hup) as (l & -> & Hl).
      eexists _, _. split; [reflexivity|]. cbn. split_and!; try done.
      * intros f Hf. by rewrite lookup_insert_ne.
      * right. exists e. unfold daily_queue. cbn. by rewrite Hfile, lookup_insert_eq.
      * by rewrite Hl.
    + rewrite (upload_next_reel_failure _ _ _ _ Hfile Hup).
      eexists _, _. split; [reflexivity|]. split_and!; try done; try (by left); attempt_count.
  - rewrite (upload_next_reel_absent _ _ Hfile).
    eexists _, _. split; [reflexivity|]. split_and!; try done; try (by left); attempt_count.
Qed.

Lemma drains_cons env envs :
  run_jobs (drains (env :: envs)) = (upload_next_reel env;; run_jobs (drains envs)).
Proof. reflexivity. Qed.



(** ** Sequences of jobs *)

Lemma run_job_cases job w :
  ∃ w' l, run_job job w = mk_outcome (inr tt) w' l ∧
    reels_json w' = reels_json w ∧
    used_set w `prefix_of` used_set w'.
Proof.
  destruct job as [[|] env]; unfold run_job; cbn [fst snd].
  - destruct (upload_next_reel_cases env w) as (w' & l & -> & Hr & Hu & _).
    eexists _, _. split; [reflexivity|]. split; [done|]. unfold used_set. by rewrite Hu.
  - bot_unfold.
    destruct (process_daily_reels_cases env w) as (batch & w' & l & -> & Hr & Hu).
    eexists _, _. split; [reflexivity|]. done.
Qed.

Lemma run_jobs_cases jobs : ∀ w,
  ∃ w' l, run_jobs jobs w = mk_outcome (inr tt) w' l ∧
    reels_json w' = reels_json w ∧
    used_set w `prefix_of` used_set w'.
Proof.
  induction jobs as [|job jobs IH]; intros w.
  - eexists _, _. split; [reflexivity|]. done.
  - cbn [run_jobs]. bot_unfold.
    destruct (run_job_cases job w) as (w1 & l1 & -> & Hr1 & Hu1).
    destruct (IH w1) as (w2 & l2 & -> & Hr2 & Hu2).
    eexists _, _. split; [reflexivity|]. split; [congruence|]. by trans (used_set w1).
Qed.

(** ** Eligibility and the used set *)

Lemma occurrences_filter (P : string → Prop) `{∀ x, Decision (P x)} r l :
  P r → occurrences r (filter P l) = occurrences r l.
Proof.
  intros Hr. unfold occurrences. induction l as [|x l IH]; [done|].
  rewrite !filter_cons. destruct (decide (x = r)) as [->|Hne].
  - rewrite decide_True by done. rewrite filter_cons, decide_True by done.
    cbn. by rewrite IH.
  - destruct (decide (P x)); [rewrite filter_cons, decide_False by done|]; apply IH.
Qed.

Lemma occurrences_zero r l : r ∉ l → occurrences r l = 0.
Proof.
  intros Hr. unfold occurrences. induction l as [|x l IH]; [done|].
  apply not_elem_of_cons in Hr as [Hne Hr].
  rewrite filter_cons, decide_False by done. by apply IH.
Qed.

(** C4.  For every all-items list and used set, [get_available_reels]
    returns (and changes nothing) exactly the elements of the all-items list
    that are not in the used set: membership is the set difference, the
    result is a subsequence of the all-items list, so its order is kept, and
    every eligible reference occurs as often as in the all-items list, so
    duplicates stay distinct entries. *)
Theorem get_available_reels_difference (w : World) :
  ∃ avail,
    returned (get_available_reels w) = inr avail ∧
    world (get_available_reels w) = w ∧
    (∀ r, r ∈ avail ↔ r ∈ all_items w ∧ r ∉ used_set w) ∧
    avail `sublist_of` all_items w ∧
    (∀ r, r ∉ used_set w → occurrences r avail = occurrences r (all_items w)).
Proof.
  exists (available w). rewrite get_available_reels_run. cbn.
  split_and!; try done.
  - intros r. unfold available. by rewrite list_elem_of_filter, (comm and).
  - apply sublist_filter.
  - intros r Hr. unfold available. by apply (occurrences_filter (λ x, x ∉ used_set w)).
Qed.

Lemma used_not_available w r : r ∈ used_set w → r ∉ available w.
Proof. unfold available. rewrite list_elem_of_filter. tauto. Qed.

(** C10.  A reference that occurs anywhere in the used set is excluded
    from [get_available_reels] at every position of the all-items list, no
    matter how often it is listed there (its number of occurrences in the
    result is zero): the filter tests membership of the string.  The
    exclusion is permanent: after any sequence of scheduled jobs the
    reference is still not available. *)
Theorem used_reference_never_available (w : World) (r : string) :
  r ∈ used_set w →
  (∃ avail, returned (get_available_reels w) = inr avail ∧
     (r ∉ avail) ∧ occurrences r avail = 0) ∧
  (∀ jobs, ∃ avail,
     returned (run_jobs jobs w) = inr tt ∧
     returned (get_available_reels (world (run_jobs jobs w))) = inr avail ∧
     r ∉ avail).
Proof.
  intros Hr. split.
  - exists (available w). rewrite get_available_reels_run. cbn.
    split; [done|]. pose proof (used_not_available w r Hr). split; [done|].
    by apply occurrences_zero.
  - intros jobs. destruct (run_jobs_cases jobs w) as (w' & l & -> & _ & Hpre). cbn.
    exists (available w'). rewrite get_available_reels_run. cbn. split_and!; try done.
    apply used_not_available. destruct Hpre as [k ->]. set_solver.
Qed.

Lemma used_reference_witness :
  "https://x.test/reel/CA1/" ∈ used_set world_A ∧
  ∃ avail, returned (get_available_reels world_A) = inr avail ∧
           ("https://x.test/reel/CA1/" ∉ avail) ∧
           occurrences "https://x.test/reel/CA1/" avail = 0.
Proof.
  assert ("https://x.test/reel/CA1/" ∈ used_set world_A) as Hused.
  { apply list_elem_of_here. }
  split; [exact Hused|].
  exact (proj1 (used_reference_never_available world_A _ Hused)).
Defined.

(** Consuming one copy is enough: every sampled reference is in the used
    set after the batch has been materialized. *)
Lemma sampled_reference_consumed env w r :
  daily_limit ≤ length (available w) →
  r ∈ selected_reels env w →
  r ∈ used_set (world (process_daily_reels env w)).
Proof.
  intros Hge Hr.
  destruct (process_daily_reels_full env w Hge) as (batch & w1 & l & _ & _ & -> & _).
  unfold used_set at 1. cbn. set_solver.
Qed.

(** A reference listed twice and sampled once: the other copy is not
    available afterwards. *)
Example duplicate_reference_consumed_once :
  let reels := ["u/a"; "u/a"; "u/b"; "u/c"; "u/d"; "u/e"; "u/f"] in
  let o := process_daily_reels (online midnight [0; 1; 1; 1; 1]) (fresh_world reels) in
  used_set (world o) = ["u/a"; "u/b"; "u/c"; "u/d"; "u/e"] ∧
  returned (get_available_reels (world o)) = inr ["u/f"].
Proof. vm_compute. done. Qed.

(** ** The batch materializer *)

(** C1.  For every pool with at least [daily_limit] available items, and
    whatever the collaborators answer for each item, [process_daily_reels]
    completes and the used set afterwards is the used set before followed by
    exactly the [daily_limit] references that [random.sample] returned, which
    were drawn from the available ones.  The call returns the successfully
    materialized entries: one entry for every sampled reference whose fetch
    succeeded, in the order of the sample, and none for the others.  So
    every returned entry belongs to a sampled reference whose post is a video
    that was downloaded; every sampled reference whose post is a video and
    whose download brings its [.mp4] file has an entry; when this holds of
    all of the sample the batch has [daily_limit] entries, when no post can
    be looked up it is empty, and in general it may be shorter than
    [daily_limit].  The entries have their media files in the download
    directory and are what the day's queue file holds. *)
Theorem materialize_marks_the_sample_used (env : Env) (w : World) :
  daily_limit ≤ length (available w) →
  ∃ batch,
    returned (process_daily_reels env w) = inr batch ∧
    random_sample env (available w) daily_limit w =
      mk_outcome (inr (selected_reels env w)) w [] ∧
    length (selected_reels env w) = daily_limit ∧
    selected_reels env w ⊆+ available w ∧
    used_set (world (process_daily_reels env w)) = used_set w ++ selected_reels env w ∧
    length (used_set (world (process_daily_reels env w))) = length (used_set w) + daily_limit ∧
    batch = materialized env (dir_listing w) (selected_reels env w) ∧
    (∀ e, e ∈ batch →
       url e ∈ selected_reels env w ∧
       ∃ post files,
         from_shortcode env (shortcode_of (url e)) = Some post ∧ is_video post = true ∧
         download_post env (shortcode_of (url e)) = Some files ∧
         description e = description_of post) ∧
    (∀ u, u ∈ selected_reels env w → fetchable env u → u ∈ url <$> batch) ∧
    (Forall (fetchable env) (selected_reels env w) →
       url <$> batch = selected_reels env w ∧ length batch = daily_limit) ∧
    ((∀ u, u ∈ selected_reels env w → from_shortcode env (shortcode_of u) = None) →
       batch = []) ∧
    url <$> batch `sublist_of` selected_reels env w ∧
    length batch ≤ daily_limit ∧
    daily_queue (daily_reels_file env) (world (process_daily_reels env w)) = batch ∧
    Forall (λ e, path_exists (file_path e) (world (process_daily_reels env w)) = true) batch.
Proof.
  intros Hge.
  destruct (process_daily_reels_full env w Hge) as (batch & w1 & l & Hrun & -> & -> & _).
  destruct (download_each_spec env (selected_reels env w) [] w)
    as (batch' & w1' & l' & Hrun' & _ & _ & _ & _ & Hsub & Hall & Hbatch).
  rewrite Hrun in Hrun'. injection Hrun' as <- <- <-.
  pose proof (selected_reels_length env w Hge) as Hlen.
  exists batch. unfold used_set at 1 3, daily_queue. cbn -[selected_reels daily_limit].
  rewrite lookup_insert_eq. cbn -[selected_reels daily_limit].
  split_and!; try done.
  - unfold random_sample. by rewrite decide_True.
  - apply selected_reels_submseteq.
  - rewrite length_app. fold (used_set w). lia.
  - intros e He. rewrite Hbatch in He. by apply materialized_fetched in He.
  - intros u Hu Hok. rewrite Hbatch. by apply materialized_elem.
  - intros Hok. assert (url <$> batch = selected_reels env w) as Hurls
      by (rewrite Hbatch; by apply materialized_all).
    split; [done|]. by rewrite <- Hlen, <- Hurls, length_fmap.
  - intros Hnone. destruct batch as [|e batch']; [done|].
    assert (e ∈ materialized env (dir_listing w) (selected_reels env w)) as He
      by (rewrite <- Hbatch; apply list_elem_of_here).
    apply materialized_fetched in He as (Hin & post & files & Hpost & _).
    by rewrite (Hnone _ Hin) in Hpost.
  - apply sublist_length in Hsub. rewrite length_fmap in Hsub. lia.
Qed.

Lemma materialize_witness :
  daily_limit ≤ length (available (fresh_world ten_references)) ∧
  returned (process_daily_reels (patchy midnight [0; 0; 0; 0; 0])
              (fresh_world ten_references)) =
    inr [mk_entry "downloaded_reels/2024_Ca.mp4" "caption" "https://x.test/reel/Ca/";
         mk_entry "downloaded_reels/2024_Cb.mp4" "caption" "https://x.test/reel/Cb/"] ∧
  length (used_set (world (process_daily_reels (patchy midnight [0; 0; 0; 0; 0])
                             (fresh_world ten_references)))) =
    length (used_set (fresh_world ten_references)) + daily_limit.
Proof.
  assert (daily_limit ≤ length (available (fresh_world ten_references))) as Hpool.
  { apply Nat.leb_le. reflexivity. }
  destruct (materialize_marks_the_sample_used (patchy midnight [0; 0; 0; 0; 0])
              (fresh_world ten_references) Hpool)
    as (batch & Hret & _ & _ & _ & _ & Hlen & Hbatch & _).
  split_and!; [exact Hpool| |exact Hlen].
  exact (eq_trans Hret (f_equal inr Hbatch)).
Defined.

(** Two of five fetches succeed: the batch has two entries, the used set
    five references. *)
Example materialize_may_fall_short :
  let o := process_daily_reels (patchy midnight [0; 0; 0; 0; 0])
             (fresh_world ten_references) in
  length <$> result o = Some 2 ∧
  length (used_set (world o)) = 5 ∧
  length (daily_queue "daily_reels_2024-03-04.json" (world o)) = 2.
Proof. vm_compute. done. Qed.

Example materialize_all_fetches_fail :
  let o := process_daily_reels (offline midnight) (fresh_world ten_references) in
  returned o = inr [] ∧
  length (used_set (world o)) = 5 ∧
  daily_json (world o) !! "daily_reels_2024-03-04.json" = Some (Holds []).
Proof. vm_compute. done. Qed.

(** C9.  Whenever fewer than [daily_limit] items are available,
    [process_daily_reels] returns the empty list and the persisted state is
    the one before the call: the used set is not extended, no queue file is
    written and no ledger row is added. *)
Theorem insufficient_pool_changes_nothing (env : Env) (w : World) :
  length (available w) < daily_limit →
  returned (process_daily_reels env w) = inr [] ∧
  world (process_daily_reels env w) = w.
Proof. intros Hlt. by rewrite process_daily_reels_short. Qed.

Lemma insufficient_pool_witness :
  length (available world_A) < daily_limit ∧
  world (process_daily_reels (online midnight []) world_A) = world_A.
Proof.
  assert (length (available world_A) < daily_limit) as Hshort.
  { apply Nat.ltb_lt. reflexivity. }
  split; [exact Hshort|].
  exact (proj2 (insufficient_pool_changes_nothing (online midnight []) world_A Hshort)).
Defined.

(** C5.  Either fewer than [daily_limit] items are available: then the
    selection is refused, the call still returns normally with the empty
    batch and an unchanged state, and the last log line is the warning that
    not enough reels were found.  Or at least [daily_limit] items are
    available: then [random.sample] does not raise and yields [daily_limit]
    references drawn from the pool without replacement (a sub-multiset of the
    pool, so distinct whenever the pool has no duplicates), and these are the
    references added to the used set. *)
Theorem short_pool_warns_else_samples (env : Env) (w : World) :
  (length (available w) < daily_limit ∧
   returned (process_daily_reels env w) = inr [] ∧
   world (process_daily_reels env w) = w ∧
   last (logs (process_daily_reels env w)) =
     Some (mk_log WARNING (Not_enough_reels (length (available w)))))
  ∨
  (daily_limit ≤ length (available w) ∧
   random_sample env (available w) daily_limit w =
     mk_outcome (inr (selected_reels env w)) w [] ∧
   length (selected_reels env w) = daily_limit ∧
   selected_reels env w ⊆+ available w ∧
   (NoDup (available w) → NoDup (selected_reels env w)) ∧
   used_set (world (process_daily_reels env w)) = used_set w ++ selected_reels env w).
Proof.
  destruct (decide (length (available w) < daily_limit)) as [Hlt|Hge].
  - left. rewrite process_daily_reels_short by done. cbn -[daily_limit].
    split_and!; try done. by rewrite !app_assoc, last_snoc.
  - right. assert (Hle : daily_limit ≤ length (available w)) by lia.
    destruct (process_daily_reels_full env w Hle) as (batch & w1 & l & _ & _ & -> & _).
    pose proof (selected_reels_submseteq env w) as Hsub.
    split_and!; try done.
    + unfold random_sample. by rewrite decide_True.
    + by apply selected_reels_length.
    + by apply submseteq_NoDup.
Qed.

(** Ten references last two days; the third day finds none. *)
Example ten_references_last_two_days :
  let day1 := process_daily_reels (online midnight []) (fresh_world ten_references) in
  let day2 := process_daily_reels (online (mk_datetime 2024 3 5 0 1 0) []) (world day1) in
  let day3 := process_daily_reels (online (mk_datetime 2024 3 6 0 1 0) []) (world day2) in
  length <$> result day1 = Some 5 ∧ length (used_set (world day1)) = 5 ∧
  length <$> result day2 = Some 5 ∧ length (used_set (world day2)) = 10 ∧
  returned day3 = inr [] ∧ world day3 = world day2 ∧
  logs day3 = [mk_log WARNING (Not_enough_reels 0)].
Proof. vm_compute. done. Qed.

(** ** The upload drainer *)

(** C6.  In a state where, at every one of the calls, the queue file of the
    current date is absent or holds the empty list, any number of drain calls
    in a row return without an exception, leave the whole persisted state
    (queue files, used set, ledger, media) as it was, and only write
    informational log lines. *)
Theorem drain_of_empty_queue_is_noop (envs : list Env) (w : World) :
  Forall (λ env, daily_json w !! daily_reels_file env = None ∨
                 daily_json w !! daily_reels_file env = Some (Holds [])) envs →
  returned (run_jobs (drains envs) w) = inr tt ∧
  world (run_jobs (drains envs) w) = w ∧
  Forall (λ r, levelname r = INFO) (logs (run_jobs (drains envs) w)).
Proof.
  induction 1 as [|env envs Henv _ IH]; [by split_and!|].
  rewrite drains_cons. bot_unfold.
  assert (∃ l, upload_next_reel env w = mk_outcome (inr tt) w l ∧
               Forall (λ r, levelname r = INFO) l) as (l & -> & Hl).
  { destruct Henv as [Hfile|Hfile].
    - rewrite (upload_next_reel_absent _ _ Hfile). eexists. split; [done|].
      by repeat constructor.
    - rewrite (upload_next_reel_nothing _ _ _ Hfile eq_refl). eexists. split; [done|].
      by repeat constructor. }
  destruct (run_jobs (drains envs) w) as [r w' l']. cbn in *.
  destruct IH as (-> & -> & Hl'). split_and!; try done. by apply Forall_app.
Qed.

Lemma drain_of_empty_queue_witness :
  Forall (λ env, daily_json world_A !! daily_reels_file env = None ∨
                 daily_json world_A !! daily_reels_file env = Some (Holds []))
    [online tuesday_morning []; offline tuesday_morning] ∧
  world (run_jobs (drains [online tuesday_morning []; offline tuesday_morning]) world_A)
    = world_A.
Proof.
  assert (Forall (λ env, daily_json world_A !! daily_reels_file env = None ∨
                         daily_json world_A !! daily_reels_file env = Some (Holds []))
            [online tuesday_morning []; offline tuesday_morning]) as Hempty.
  { repeat constructor; left; reflexivity. }
  split; [exact Hempty|].
  exact (proj1 (proj2 (drain_of_empty_queue_is_noop _ world_A Hempty))).
Defined.



Lemma set_upload_date_stamped u stamp df r :
  r ∈ set_upload_date u stamp df → URL r = u → Upload_Date r = stamp.
Proof.
  unfold set_upload_date. rewrite list_elem_of_fmap. intros (r0 & -> & _).
  by case_decide.
Qed.

Lemma set_upload_date_keeps_row u stamp df r :
  r ∈ df → URL r = u →
  ∃ r', r' ∈ set_upload_date u stamp df ∧ URL r' = u ∧ Upload_Date r' = stamp.
Proof.
  intros Hin Hu. exists (mk_row (URL r) (Description r) (Download_Date r) stamp).
  split; [|done]. unfold set_upload_date. apply list_elem_of_fmap.
  exists r. by rewrite decide_True.
Qed.

Lemma set_upload_date_other u stamp df :
  (∀ r, r ∈ df → URL r ≠ u) → set_upload_date u stamp df = df.
Proof.
  intros Hno. unfold set_upload_date. induction df as [|r df IH]; [done|].
  cbn. rewrite decide_False by (apply Hno, list_elem_of_here).
  f_equal. apply IH. intros r' Hr'. by apply Hno, list_elem_of_further.
Qed.

(** C3, as amended.  For every non-empty daily queue whose head entry the
    publish collaborator accepts, the drain call returns normally; the queue
    file then holds the former list without its head, so the queue is shorter
    by exactly one; and the entry's media file no longer exists.  The ledger
    update is best effort.  When the ledger is read, the library takes the
    timestamp and writes the sheet, the file holds the frame that was read
    with the time of the call, which is not blank, as upload timestamp of
    every row of the entry's reference, and no error is logged; a frame
    without a row of that reference is written back as it was read, with no
    row stamped.  When there is no readable ledger, or the library refuses
    the timestamp or the write, an error is logged and nothing is stamped:
    the file is absent as before, or holds the former sheet, or the part the
    library had written. *)
Theorem successful_publish_commits (env : Env) (w : World) (e : BatchEntry) (q : list BatchEntry) :
  daily_json w !! daily_reels_file env = Some (Holds (e :: q)) →
  clip_upload env (file_path e) (description e) = true →
  let o := upload_next_reel env w in
  let stamp := strftime_datetime (now env) in
  returned o = inr tt ∧
  daily_json (world o) !! daily_reels_file env = Some (Holds q) ∧
  length (daily_queue (daily_reels_file env) (world o)) + 1 =
    length (daily_queue (daily_reels_file env) w) ∧
  path_exists (file_path e) (world o) = false ∧
  stamp ≠ "" ∧
  match description_xlsx w with
  | None =>
      description_xlsx (world o) = None ∧
      mk_log ERROR Failed_to_update_upload_date ∈ logs o
  | Some sheet =>
      let df := pd_read_excel env sheet in
      if loc_takes env (url e) df then
        match df_to_excel env (set_upload_date (url e) stamp df) with
        | Saved =>
            description_xlsx (world o) = Some (set_upload_date (url e) stamp df) ∧
            (mk_log ERROR Failed_to_update_upload_date ∉ logs o) ∧
            (∀ r, r ∈ ledger_rows (world o) → URL r = url e → Upload_Date r = stamp) ∧
            (∀ r, r ∈ df → URL r = url e →
               ∃ r', r' ∈ ledger_rows (world o) ∧ URL r' = url e ∧ Upload_Date r' = stamp) ∧
            ((∀ r, r ∈ df → URL r ≠ url e) → ledger_rows (world o) = df)
        | Refused partial =>
            description_xlsx (world o) = Some partial ∧
            mk_log ERROR Failed_to_update_upload_date ∈ logs o
        end
      else
        description_xlsx (world o) = Some sheet ∧
        mk_log ERROR Failed_to_update_upload_date ∈ logs o
  end.
Proof.
  intros Hfile Hup o stamp. subst o stamp.
  pose proof (upload_next_reel_ledger_error _ _ _ _ Hfile Hup) as Herr.
  destruct (upload_next_reel_success _ _ _ _ Hfile Hup) as (l & Hrun & _).
  rewrite Hrun in *. clear Hrun.
  unfold daily_queue, ledger_rows. cbn [returned world logs daily_json description_xlsx].
  rewrite lookup_insert_eq, Hfile. cbn [stored length].
  split_and!; try done.
  - lia.
  - by apply (path_exists_without_video _ w).
  - apply strftime_datetime_nonempty.
  - unfold stamped_ledger, stamp_saved in *.
    destruct (description_xlsx w) as [sheet|]; [|split; [done|by apply Herr]].
    cbn zeta in *. destruct (loc_takes env (url e) _); [|split; [done|by apply Herr]].
    destruct (df_to_excel env _) as [|partial]; [|split; [done|by apply Herr]].
    cbn [default]. split_and!; try done.
    + intros Hin. by apply Herr in Hin.
    + intros r Hr Hu. by apply (set_upload_date_stamped _ _ _ _ Hr Hu).
    + intros r Hr Hu.
      destruct (set_upload_date_keeps_row _ (strftime_datetime (now env)) _ _ Hr Hu)
        as (r' & Hr' & Hu' & Hd').
      by exists r'.
    + apply set_upload_date_other.
Qed.

Lemma successful_publish_witness :
  daily_json world_AB !! daily_reels_file (online monday_evening []) =
    Some (Holds [entry_A; entry_B]) ∧
  clip_upload (online monday_evening []) (file_path entry_A) (description entry_A) = true ∧
  daily_queue "daily_reels_2024-03-04.json"
    (world (upload_next_reel (online monday_evening []) world_AB)) = [entry_B] ∧
  path_exists (file_path entry_A) (world (upload_next_reel (online monday_evening []) world_AB))
    = false ∧
  description_xlsx (world (upload_next_reel (online monday_evening []) world_AB)) =
    Some [mk_row "https://x.test/reel/CA1/" "caption A" "2024-03-04 00:01:00"
            "2024-03-04 21:00:00"; row_B].
Proof.
  destruct (successful_publish_commits (online monday_evening []) world_AB entry_A [entry_B]
              eq_refl eq_refl) as (_ & Hq & _ & Hgone & _ & Hledger).
  split_and!; [reflexivity|reflexivity|exact (f_equal stored Hq)|exact Hgone|].
  exact (proj1 Hledger).
Defined.

(** C3, as stated, fails: an accepted publish need not leave a stamped row.
    First, in a state whose ledger has no row of the head entry's reference,
    with a library that reads and writes faithfully: the queue advances, the
    video is deleted, and no row of the reference carries a timestamp.
    Second, on a run from initialized files: Monday's prepare call appends
    the five rows with a blank upload date; a library that reads a column of
    blanks as numbers refuses the timestamp at the first publish; the error
    is swallowed, the queue advances, and the row of the published entry
    keeps its blank upload date. *)
Lemma accepted_publish_leaves_no_stamp :
  let o := upload_next_reel (online monday_evening []) world_A_without_row in
  let o' := upload_next_reel (numeric_blanks monday_evening []) world_monday in
  (daily_json world_A_without_row !! daily_reels_file (online monday_evening []) =
     Some (Holds [entry_A]) ∧
   clip_upload (online monday_evening []) (file_path entry_A) (description entry_A) = true ∧
   daily_queue "daily_reels_2024-03-04.json" (world o) = [] ∧
   path_exists (file_path entry_A) (world o) = false ∧
   Forall (λ r, URL r = url entry_A → Upload_Date r = "") (ledger_rows (world o))) ∧
  (daily_json world_monday !! daily_reels_file (numeric_blanks monday_evening []) =
     Some (Holds monday_batch) ∧
   filter is_any_attempt (logs o') =
     [mk_log INFO (Successfully_uploaded "downloaded_reels/Ca.mp4")] ∧
   daily_queue "daily_reels_2024-03-04.json" (world o') = tail monday_batch ∧
   path_exists "downloaded_reels/Ca.mp4" (world o') = false ∧
   Exists (λ r, URL r = "https://x.test/reel/Ca/") (ledger_rows (world o')) ∧
   Forall (λ r, Upload_Date r = "") (ledger_rows (world o'))).
Proof.
  cbv zeta. split; split_and!; try (vm_compute; reflexivity).
  all: apply (bool_decide_unpack _); vm_compute; reflexivity.
Qed.

(** C2, as amended.  For every non-empty daily queue whose head entry the
    publish collaborator refuses, the drain call returns normally and leaves
    the whole persisted state as it was: the queue has the same length and the
    same entry at its front.  Every later drain call of the same calendar
    date hands that same entry to the publish collaborator again; nothing
    counts or delays the attempts: after any number of refused attempts in a
    row the state is still the original one, and each call made one attempt.
    A drain call whose date names another queue file leaves this queue as it
    is and hands to the publish collaborator nothing but the head entry of
    that other queue: it does not retry this entry, unless that other queue
    has this entry's media file at its head as well; with that other file
    absent or empty it makes no attempt at all. *)
Theorem failed_publish_requeues_for_the_day (env : Env) (w : World) (e : BatchEntry)
    (q : list BatchEntry) :
  daily_json w !! daily_reels_file env = Some (Holds (e :: q)) →
  clip_upload env (file_path e) (description e) = false →
  returned (upload_next_reel env w) = inr tt ∧
  world (upload_next_reel env w) = w ∧
  daily_queue (daily_reels_file env) (world (upload_next_reel env w)) = e :: q ∧
  (∀ env', daily_reels_file env' = daily_reels_file env →
     Exists (is_attempt (file_path e)) (logs (upload_next_reel env' w))) ∧
  (∀ envs,
     Forall (λ env', daily_reels_file env' = daily_reels_file env ∧
                     clip_upload env' (file_path e) (description e) = false) envs →
     returned (run_jobs (drains envs) w) = inr tt ∧
     world (run_jobs (drains envs) w) = w ∧
     logs (run_jobs (drains envs) w) =
       replicate (length envs) (mk_log ERROR (Failed_to_upload (file_path e)))) ∧
  (∀ env', daily_reels_file env' ≠ daily_reels_file env →
     daily_json (world (upload_next_reel env' w)) !! daily_reels_file env =
       Some (Holds (e :: q)) ∧
     (∀ r, r ∈ logs (upload_next_reel env' w) → is_any_attempt r →
        ∃ e' q', daily_json w !! daily_reels_file env' = Some (Holds (e' :: q')) ∧
                 is_attempt (file_path e') r) ∧
     ((∀ e' q', daily_json w !! daily_reels_file env' = Some (Holds (e' :: q')) →
                file_path e' ≠ file_path e) →
      ¬ Exists (is_attempt (file_path e)) (logs (upload_next_reel env' w))) ∧
     (stored (daily_json w !! daily_reels_file env') = [] →
      ¬ Exists is_any_attempt (logs (upload_next_reel env' w)))).
Proof.
  intros Hfile Hfail. rewrite (upload_next_reel_failure _ _ _ _ Hfile Hfail). cbn.
  split_and!; try done; cycle 3.
  { intros env' Hne. split_and!.
    - destruct (upload_next_reel_cases env' w) as (w' & l & -> & _ & _ & Hother & _). cbn.
      rewrite Hother; done.
    - intros r. apply upload_next_reel_attempts.
    - intros Hhead [r [Hr Hatt]]%Exists_exists.
      destruct (upload_next_reel_attempts env' w r Hr) as (e' & q' & Hq' & Hatt').
      { destruct Hatt as [->| ->]; done. }
      apply (Hhead e' q' Hq').
      destruct Hatt as [->| ->], Hatt' as [Heq|Heq]; by injection Heq.
    - intros Hempty [r [Hr Hatt]]%Exists_exists.
      destruct (upload_next_reel_attempts env' w r Hr Hatt) as (e' & q' & Hq' & _).
      by rewrite Hq' in Hempty. }
  - unfold daily_queue. by rewrite Hfile.
  - intros env' Hsame. rewrite <- Hsame in Hfile.
    destruct (clip_upload env' (file_path e) (description e)) eqn:Hup.
    + destruct (upload_next_reel_success _ _ _ _ Hfile Hup) as (l & -> & Hl). cbn.
      apply Exists_exists. exists (mk_log INFO (Successfully_uploaded (file_path e))).
      split; [|by left].
      assert (mk_log INFO (Successfully_uploaded (file_path e)) ∈ filter is_any_attempt l)
        as Hin by (rewrite Hl; apply list_elem_of_singleton; done).
      by apply list_elem_of_filter in Hin as [_ ?].
    + rewrite (upload_next_reel_failure _ _ _ _ Hfile Hup). cbn.
      apply Exists_cons_hd. by right.
  - induction 1 as [|env' envs [Hsame Hfail'] _ IH]; [done|].
    rewrite drains_cons. bot_unfold. rewrite <- Hsame in Hfile.
    rewrite (upload_next_reel_failure _ _ _ _ Hfile Hfail').
    destruct (run_jobs (drains envs) w) as [r w' l']. cbn in *.
    destruct IH as (-> & -> & ->). done.
Qed.

Lemma failed_publish_requeues_witness :
  daily_json world_AB !! daily_reels_file (offline monday_evening) =
    Some (Holds [entry_A; entry_B]) ∧
  clip_upload (offline monday_evening) (file_path entry_A) (description entry_A) = false ∧
  daily_queue (daily_reels_file (offline monday_evening))
    (world (upload_next_reel (offline monday_evening) world_AB)) = [entry_A; entry_B] ∧
  world (upload_next_reel (offline monday_evening) world_AB) = world_AB.
Proof.
  split_and!; [reflexivity|reflexivity| |].
  - exact (proj1 (proj2 (proj2 (failed_publish_requeues_for_the_day
                                  (offline monday_evening) world_AB entry_A [entry_B]
                                  eq_refl eq_refl)))).
  - exact (proj1 (proj2 (failed_publish_requeues_for_the_day
                           (offline monday_evening) world_AB entry_A [entry_B]
                           eq_refl eq_refl))).
Defined.

(** C2, as stated, fails on the schedule's own order of calls.  Monday's
    last slot (21:00) finds entry A at the head of Monday's queue and the
    publish collaborator refuses it.  The prepare call of Tuesday 00:01 finds
    one available reference and writes nothing.  The next drain call is
    Tuesday's first slot (07:30): it looks for Tuesday's queue file, finds
    none, and returns; entry A is not handed to the publish collaborator, and
    it stays at the head of Monday's queue, which no later call reads. *)
Lemma monday_failure_is_not_retried_on_tuesday :
  let w1 := world (upload_next_reel (offline monday_evening) world_A) in
  let w2 := world (process_daily_reels (online tuesday_prepare []) w1) in
  let next := upload_next_reel (online tuesday_morning []) w2 in
  daily_json world_A !! daily_reels_file (offline monday_evening) = Some (Holds [entry_A]) ∧
  clip_upload (offline monday_evening) (file_path entry_A) (description entry_A) = false ∧
  daily_queue (daily_reels_file (offline monday_evening)) w1 = [entry_A] ∧
  logs next = [mk_log INFO No_reels_prepared] ∧
  ¬ Exists (is_attempt (file_path entry_A)) (logs next) ∧
  daily_queue (daily_reels_file (offline monday_evening)) (world next) = [entry_A].
Proof.
  assert (logs (upload_next_reel (online tuesday_morning [])
                  (world (process_daily_reels (online tuesday_prepare [])
                            (world (upload_next_reel (offline monday_evening) world_A)))))
          = [mk_log INFO No_reels_prepared]) as Hlogs by (vm_compute; reflexivity).
  cbv zeta. rewrite Hlogs. split_and!; try (vm_compute; reflexivity).
  intros [[H|H]|H]%Exists_cons; [done|done|by inversion H].
Qed.

(** In general: no call after a refused attempt is bound to retry the
    entry. *)
Lemma next_drain_need_not_retry :
  ¬ (∀ (env env' : Env) (w : World) (e : BatchEntry) (q : list BatchEntry),
       daily_json w !! daily_reels_file env = Some (Holds (e :: q)) →
       clip_upload env (file_path e) (description e) = false →
       Exists (is_attempt (file_path e))
         (logs (upload_next_reel env' (world (upload_next_reel env w))))).
Proof.
  intros H.
  specialize (H (offline monday_evening) (online tuesday_morning []) world_A entry_A []
                eq_refl eq_refl).
  assert (logs (upload_next_reel (online tuesday_morning [])
                  (world (upload_next_reel (offline monday_evening) world_A)))
          = [mk_log INFO No_reels_prepared]) as Hlogs by (vm_compute; reflexivity).
  rewrite Hlogs in H. apply Exists_cons in H as [[H|H]|H]; [done|done|by inversion H].
Qed.

(** A queue [[A; B]]: a refused publish leaves it, an accepted one leaves
    [[B]], stamps A's row and deletes A's video. *)
Example drain_scenario :
  let q0 := [entry_A; entry_B] in
  let w0 := mk_world None None {[ "daily_reels_2024-03-04.json" := Holds q0 ]}
              (Some [row_A]) ["2024-03-04_CA1.mp4"; "2024-03-04_CB2.mp4"] in
  let w1 := world (upload_next_reel (offline monday_evening) w0) in
  let w2 := world (upload_next_reel (online monday_evening []) w1) in
  daily_queue "daily_reels_2024-03-04.json" w1 = q0 ∧
  daily_queue "daily_reels_2024-03-04.json" w2 = [entry_B] ∧
  ledger_rows w2 = [mk_row "https://x.test/reel/CA1/" "caption A" "2024-03-04 00:01:00"
                      "2024-03-04 21:00:00"] ∧
  dir_listing w2 = ["2024-03-04_CB2.mp4"].
Proof. vm_compute. done. Qed.

(** ** Publishing without a ledger *)

(** Without a readable ledger the publish still commits: the queue
    advances, the video is deleted, the failure is logged. *)
Example publish_without_ledger :
  let w0 := mk_world None None {[ "daily_reels_2024-03-04.json" := Holds [entry_A] ]}
              None ["2024-03-04_CA1.mp4"] in
  let o := upload_next_reel (online monday_evening []) w0 in
  daily_queue "daily_reels_2024-03-04.json" (world o) = [] ∧
  description_xlsx (world o) = None ∧
  dir_listing (world o) = [] ∧
  mk_log ERROR Failed_to_update_upload_date ∈ logs o.
Proof. vm_compute. split_and!; try done. apply list_elem_of_here. Qed.

(** ** The schedule *)

(** The claim that the number of drain slots is five or ten depending on the
    weekday needs a weekday with ten drain slots; there is none. *)
Lemma no_weekday_has_ten_drain_slots :
  ¬ ∃ d, length (slots d do_upload_next_reel) = 10.
Proof. intros [d Hd]. by destruct d. Qed.

(** C8, as amended.  On every day of the week the schedule binds exactly
    five fixed local-time slots to the drain call (one set of times from
    Monday to Friday, another on Saturday and Sunday; no day has ten) and
    exactly one slot, 00:01, to the daily prepare call.  The six slot times
    of a day are pairwise different and each belongs to one job, so each slot
    triggers exactly one call. *)
Theorem schedule_five_drains_and_one_prepare (d : weekday) :
  slots d do_upload_next_reel =
    (if is_weekend d
     then ["09:00"; "12:00"; "15:00"; "18:30"; "21:30"]
     else ["07:30"; "11:00"; "13:30"; "17:30"; "21:00"]) ∧
  length (slots d do_upload_next_reel) = 5 ∧
  slots d do_process_daily_reels = ["00:01"] ∧
  NoDup (at_time <$> filter (runs_on d) setup_schedule) ∧
  length (filter (runs_on d) setup_schedule) = 6.
Proof.
  destruct d; split_and!; try reflexivity; by apply (bool_decide_unpack _).
Qed.

(** ** The first start *)

(** X2.  [initialize_files] never raises; afterwards [used.json] and the
    ledger exist; a file that existed keeps its content (an undecodable
    [used.json] is not repaired); nothing else changes; and a second call
    changes nothing. *)
Theorem initialize_files_idempotent (w : World) :
  let w1 := world (initialize_files w) in
  returned (initialize_files w) = inr tt ∧
  is_Some (used_json w1) ∧ is_Some (description_xlsx w1) ∧
  (∀ body, used_json w = Some body → used_json w1 = Some body) ∧
  (∀ df, description_xlsx w = Some df → description_xlsx w1 = Some df) ∧
  used_set w1 = used_set w ∧ ledger_rows w1 = ledger_rows w ∧
  reels_json w1 = reels_json w ∧ daily_json w1 = daily_json w ∧
  dir_listing w1 = dir_listing w ∧
  initialize_files w1 = mk_outcome (inr tt) w1 [].
Proof.
  unfold initialize_files, save_json_file, used_store. bot_unfold.
  destruct w as [r [u|] d [x|] l]; cbn; split_and!; try done; eauto.
Qed.

(** ** Shortcodes and file names *)

Lemma string_app_nil_l (s : string) : "" +:+ s = s.
Proof. reflexivity. Qed.

Lemma string_app_cons (a : ascii) (x s : string) : String a x +:+ s = String a (x +:+ s).
Proof. reflexivity. Qed.

Lemma string_app_assoc (a b c : string) : (a +:+ b) +:+ c = a +:+ (b +:+ c).
Proof. induction a as [|x a IH]; [reflexivity|]. rewrite !string_app_cons. by rewrite IH. Qed.

Lemma has_char_cons c a s : has_char c (String a s) ↔ a = c ∨ has_char c s.
Proof.
  split.
  - intros ([|a' x] & b & Heq); injection Heq as -> ->; [by left|].
    right. by exists x, b.
  - intros [->|(x & b & ->)]; [by exists "", s|by exists (String a x), b].
Qed.

Lemma has_char_nil c : ¬ has_char c "".
Proof. by intros ([|a x] & b & Heq). Qed.

Lemma split_nonempty c s : Str.split c s ≠ [].
Proof.
  induction s as [|a s IH]; [done|]. cbn.
  destruct (Str.split c s); [done|]. by case_decide.
Qed.

Lemma split_segments c s seg : seg ∈ Str.split c s → ¬ has_char c seg.
Proof.
  revert seg. induction s as [|a s IH]; intros seg; cbn.
  - intros ->%list_elem_of_singleton. apply has_char_nil.
  - destruct (Str.split c s) as [|seg0 rest]; [by inversion 1|].
    case_decide as Hac.
    + intros [->|Hin]%elem_of_cons; [apply has_char_nil|by apply IH].
    + intros [->|Hin]%elem_of_cons.
      * rewrite has_char_cons. intros [?|?]; [done|]. by apply (IH seg0); [left|].
      * apply IH. by right.
Qed.

Lemma split_none c s : ¬ has_char c s → Str.split c s = [s].
Proof.
  induction s as [|a s IH]; [done|]. rewrite has_char_cons. intros Hno. cbn [Str.split].
  rewrite IH by tauto. by rewrite decide_False by tauto.
Qed.

Lemma split_app c x y : Str.split c (x +:+ String c y) = Str.split c x ++ Str.split c y.
Proof.
  induction x as [|a x IH].
  - rewrite string_app_nil_l. cbn. pose proof (split_nonempty c y).
    destruct (Str.split c y); [done|]. by case_decide.
  - rewrite string_app_cons. cbn. rewrite IH. pose proof (split_nonempty c x).
    destruct (Str.split c x) as [|seg rest]; [done|]. cbn. by case_decide.
Qed.

Lemma rstrip_snoc c s : Str.rstrip c (s +:+ String c "") = Str.rstrip c s.
Proof.
  induction s as [|a s IH]; [rewrite string_app_nil_l; cbn; by case_decide|].
  rewrite string_app_cons. cbn. by rewrite IH.
Qed.

Lemma rstrip_none c s : ¬ has_char c s → Str.rstrip c s = s.
Proof.
  induction s as [|a s IH]; [done|]. rewrite has_char_cons. intros Hno. cbn.
  rewrite IH by tauto. destruct s; [|done]. rewrite decide_False by tauto. done.
Qed.

Lemma rstrip_app c x s : s ≠ "" → ¬ has_char c s → Str.rstrip c (x +:+ s) = x +:+ s.
Proof.
  intros Hne Hno. induction x as [|a x IH]; [by apply rstrip_none|].
  rewrite string_app_cons. cbn. rewrite IH. destruct (x +:+ s) eqn:Heq; [|done].
  destruct x; [by rewrite string_app_nil_l in Heq|by rewrite string_app_cons in Heq].
Qed.

Lemma shortcode_of_snoc u : shortcode_of (u +:+ "/") = shortcode_of u.
Proof. unfold shortcode_of. by rewrite rstrip_snoc. Qed.

(** X3.  The shortcode [extract_reel_info] takes from a URL holds no
    slash, and a slash at the end of the URL does not change it. *)
Theorem shortcode_of_has_no_slash (u : string) :
  ¬ has_char "/" (shortcode_of u) ∧
  shortcode_of (u +:+ "/") = shortcode_of u.
Proof.
  unfold shortcode_of. split.
  - destruct (last _) as [seg|] eqn:Hlast; [|apply has_char_nil].
    cbn. apply (split_segments "/" (Str.rstrip "/" u)). by apply last_Some_elem_of.
  - apply shortcode_of_snoc.
Qed.

(** X4.  For a URL that ends in a non-empty segment without a slash, with
    or without a closing slash, the shortcode is that segment; a string
    without any slash is its own shortcode. *)
Theorem shortcode_of_last_segment (base code : string) :
  code ≠ "" → ¬ has_char "/" code →
  shortcode_of (base +:+ "/" +:+ code) = code ∧
  shortcode_of (base +:+ "/" +:+ code +:+ "/") = code ∧
  shortcode_of code = code.
Proof.
  intros Hne Hno.
  assert (shortcode_of (base +:+ "/" +:+ code) = code) as H1.
  { unfold shortcode_of.
    rewrite <- (string_app_assoc base "/" code). rewrite (rstrip_app "/" _ code Hne Hno).
    rewrite (string_app_assoc base "/" code). change ("/" +:+ code) with (String "/" code).
    by rewrite split_app, (split_none _ code), last_snoc. }
  split_and!; [done| |].
  - replace (base +:+ "/" +:+ code +:+ "/") with ((base +:+ "/" +:+ code) +:+ "/")
      by (by rewrite !string_app_assoc).
    by rewrite shortcode_of_snoc.
  - unfold shortcode_of. by rewrite rstrip_none, split_none.
Qed.

Lemma shortcode_of_last_segment_witness :
  "CA1" ≠ "" ∧ ¬ has_char "/" "CA1" ∧
  shortcode_of ("https://x.test/reel" +:+ "/" +:+ "CA1" +:+ "/") = "CA1".
Proof.
  assert (¬ has_char "/" "CA1") as Hno.
  { rewrite !has_char_cons. intros [?|[?|[?|H]]]; try done. by apply has_char_nil in H. }
  split_and!; [done|exact Hno|].
  exact (proj1 (proj2 (shortcode_of_last_segment "https://x.test/reel" "CA1"
                         (λ H, eq_ind "CA1" (λ s, if s is "" then False else True) I "" H)
                         Hno))).
Defined.

Lemma prefix_spec p s : String.prefix p s = true ↔ ∃ b, s = p +:+ b.
Proof.
  revert s. induction p as [|a p IH]; intros s.
  - split; [intros _; by exists s|by destruct s].
  - destruct s as [|a' s]; cbn.
    + split; [done|]. by intros [b Hb].
    + destruct (Ascii.ascii_dec a a') as [->|Hne].
      * rewrite IH. split; intros [b Hb]; exists b.
        -- rewrite string_app_cons. by f_equal.
        -- rewrite string_app_cons in Hb. by injection Hb.
      * split; [done|]. intros [b Hb]. rewrite string_app_cons in Hb. by injection Hb.
Qed.

Lemma contains_spec sub s : Str.contains sub s = true ↔ ∃ a b, s = a +:+ sub +:+ b.
Proof.
  induction s as [|c s IH]; cbn [Str.contains]; rewrite orb_true_iff, prefix_spec.
  - split.
    + intros [[b Hb]|?]; [|done]. by exists "", b.
    + intros ([|c a] & b & Hab); [left; by exists b|by rewrite string_app_cons in Hab].
  - rewrite IH. split.
    + intros [[b Hb]|(a & b & ->)]; [by exists "", b|by exists (String c a), b].
    + intros ([|c' a] & b & Hab); [left; by exists b|].
      rewrite string_app_cons in Hab. injection Hab as -> ->. right. by exists a, b.
Qed.

Lemma endswith_spec suf s : Str.endswith suf s = true ↔ ∃ a, s = a +:+ suf.
Proof.
  induction s as [|c s IH]; cbn [Str.endswith]; rewrite orb_true_iff, String.eqb_eq.
  - split.
    + intros [<-|?]; [|done]. by exists "".
    + intros ([|c a] & Ha); [by left|by rewrite string_app_cons in Ha].
  - rewrite IH. split.
    + intros [<-|(a & ->)]; [by exists ""|by exists (String c a)].
    + intros ([|c' a] & Ha); [by left|].
      rewrite string_app_cons in Ha. injection Ha as -> ->. right. by exists a.
Qed.



(** ** What fetching one reel yields *)

(** X5.  [extract_reel_info] never raises and never touches the files.
    When the post cannot be looked up it returns nothing and logs one error;
    otherwise it returns the URL, its shortcode, the video flag of the post
    and a description that is never empty: the caption, or the default text
    when the caption is missing or empty. *)
Theorem extract_reel_info_outcome (env : Env) (u : string) (w : World) :
  world (extract_reel_info env u w) = w ∧
  match from_shortcode env (shortcode_of u) with
  | None =>
      returned (extract_reel_info env u w) = inr None ∧
      logs (extract_reel_info env u w) = [mk_log ERROR (Failed_to_extract_info u)]
  | Some post =>
      ∃ info, returned (extract_reel_info env u w) = inr (Some info) ∧
        logs (extract_reel_info env u w) = [] ∧
        info_url info = u ∧ info_shortcode info = shortcode_of u ∧
        info_is_video info = is_video post ∧
        info_description info ≠ "" ∧
        (∀ c, caption post = Some c → c ≠ "" → info_description info = c) ∧
        (caption post = None ∨ caption post = Some "" →
           info_description info = "No description available")
  end.
Proof.
  unfold extract_reel_info, Post_from_shortcode.
  destruct (from_shortcode env (shortcode_of u)) as [[cap vid]|]; bot_simpl; [|done].
  split; [done|]. eexists. split; [reflexivity|]. cbn. split_and!; try done.
  - destruct cap as [c|]; [|done]. by case_decide.
  - intros c [= ->] Hc. by rewrite decide_False.
  - intros [->|[= ->]]; done.
Qed.

(** X6.  [download_reel] never raises and never touches the JSON files.
    It returns the entry of a successful fetch and nothing otherwise; a fetch
    whose post is a video and whose download brings a file named with the
    shortcode and ending in [.mp4] does succeed.  A returned entry carries
    the URL it was asked for and a non-empty description; its post is a video
    whose download succeeded; its path is the download directory joined with
    a file of that directory whose name holds the shortcode and ends in
    [.mp4].  The ledger is touched only when an entry is returned, and best
    effort: the library is asked to write the frame it read followed by the
    row of the entry, with a blank upload date; the file then holds that
    frame, or, when the library refuses, the part it had written, and the
    error is logged; the entry is returned all the same.  An absent ledger
    stays absent.  When the post is not a video nothing is returned and
    nothing has changed. *)
Theorem download_reel_outcome (env : Env) (u : string) (w : World) :
  ∃ r, returned (download_reel env u w) = inr r ∧
    r = fetched env (dir_listing w) u ∧
    (fetchable env u → is_Some r) ∧
    reels_json (world (download_reel env u w)) = reels_json w ∧
    used_json (world (download_reel env u w)) = used_json w ∧
    daily_json (world (download_reel env u w)) = daily_json w ∧
    description_xlsx (world (download_reel env u w)) =
      match r, description_xlsx w with
      | Some e, Some sheet =>
          let df := pd_read_excel env sheet ++ [row_of_entry env e] in
          Some (match df_to_excel env df with Saved => df | Refused partial => partial end)
      | _, x => x
      end ∧
    (mk_log ERROR Failed_to_save_description ∈ logs (download_reel env u w) ↔
       ∃ e, r = Some e ∧
         match description_xlsx w with
         | Some sheet =>
             df_to_excel env (pd_read_excel env sheet ++ [row_of_entry env e]) ≠ Saved
         | None => True
         end) ∧
    (∀ e, r = Some e →
       url e = u ∧ description e ≠ "" ∧
       (∃ post, from_shortcode env (shortcode_of u) = Some post ∧ is_video post = true) ∧
       is_Some (download_post env (shortcode_of u)) ∧
       ∃ file, file_path e = download_dir +:+ "/" +:+ file ∧
         file ∈ dir_listing (world (download_reel env u w)) ∧
         (∃ a b, file = a +:+ shortcode_of u +:+ b) ∧
         (∃ a, file = a +:+ ".mp4")) ∧
    ((∀ post, from_shortcode env (shortcode_of u) = Some post → is_video post = false) →
       r = None ∧ world (download_reel env u w) = w).
Proof.
  destruct (download_reel_spec env u w)
    as (r & w' & l & Hrun & Hr & Hu & Hd & Hdir & Hfetch & Hledger & Hlog).
  rewrite Hrun. cbn [returned world logs]. exists r. split_and!; try done.
  - intros Hok. rewrite Hfetch. by apply fetchable_fetched.
  - rewrite Hledger. unfold appended_ledger.
    destruct r as [e|], (description_xlsx w) as [sheet|]; try done.
    cbn zeta. by destruct (df_to_excel env _).
  - rewrite Hlog. unfold append_saved. split; intros (e & -> & Hsave); exists e.
    + split; [done|]. destruct (description_xlsx w) as [sheet|]; [|done].
      by destruct (df_to_excel env _).
    + split; [done|]. destruct (description_xlsx w) as [sheet|]; [|done].
      by destruct (df_to_excel env _).
  - intros e ->. symmetry in Hfetch.
    apply fetched_Some in Hfetch
      as (Hurl & post & files & file & Hpost & Hvid & Hdl & Hdesc & Hp & Hin & Hfile).
    unfold is_video_of in Hfile. apply andb_true_iff in Hfile as [Hc He].
    apply contains_spec in Hc. apply endswith_spec in He.
    split_and!; try done.
    + rewrite Hdesc. unfold description_of. destruct (caption post) as [c|]; [|done].
      by case_decide.
    + by exists post.
    + exists file. rewrite Hdir. by split_and!.
  - intros Hno. assert (fetched env (dir_listing w) u = None ∧
                        downloaded_files env (dir_listing w) u = dir_listing w) as [Hnone Hsame].
    { unfold fetched, downloaded_files.
      destruct (from_shortcode env (shortcode_of u)) as [post|]; [|done].
      by rewrite (Hno post eq_refl). }
    rewrite Hnone in Hfetch. subst r. split; [done|].
    destruct w, w'. cbn in *. congruence.
Qed.

(** ** The ledger over time *)

Lemma set_upload_date_lookup u stamp df i :
  set_upload_date u stamp df !! i =
    (λ r, if decide (URL r = u)
          then mk_row (URL r) (Description r) (Download_Date r) stamp else r) <$> df !! i.
Proof. unfold set_upload_date. by rewrite list_lookup_fmap. Qed.

(** X7.  [update_upload_date_in_excel] never raises and touches only the
    ledger.  Without a readable ledger, and when the library refuses the
    timestamp, nothing changes and one error is logged.  When the library
    refuses the write, the file holds the part it had written and one error
    is logged.  Otherwise nothing is logged and the file holds the frame
    that was read, with as many rows and, row by row, the same URL,
    description and download date; the upload date is the time of the call
    in the rows of the given URL and what was read in the others. *)
Theorem update_upload_date_in_place (env : Env) (u : string) (w : World) :
  let o := update_upload_date_in_excel env u w in
  let stamp := strftime_datetime (now env) in
  returned o = inr tt ∧
  reels_json (world o) = reels_json w ∧ used_json (world o) = used_json w ∧
  daily_json (world o) = daily_json w ∧ dir_listing (world o) = dir_listing w ∧
  match description_xlsx w with
  | None => world o = w ∧ logs o = [mk_log ERROR Failed_to_update_upload_date]
  | Some sheet =>
      let df := pd_read_excel env sheet in
      if loc_takes env u df then
        match df_to_excel env (set_upload_date u stamp df) with
        | Saved =>
            logs o = [] ∧
            ∃ df', description_xlsx (world o) = Some df' ∧
              length df' = length df ∧
              ∀ i r, df !! i = Some r →
                ∃ r', df' !! i = Some r' ∧ row_key r' = row_key r ∧
                  Upload_Date r' = if decide (URL r = u) then stamp else Upload_Date r
        | Refused partial =>
            description_xlsx (world o) = Some partial ∧
            logs o = [mk_log ERROR Failed_to_update_upload_date]
        end
      else world o = w ∧ logs o = [mk_log ERROR Failed_to_update_upload_date]
  end.
Proof.
  cbn zeta. rewrite update_upload_date_in_excel_run. cbn [returned world logs].
  unfold stamped_ledger, stamp_saved. split_and!; try done.
  destruct w as [r us d [sheet|] dir]; cbn; [|done].
  destruct (loc_takes env u _); cbn; [|done].
  destruct (df_to_excel env _); cbn; [|done].
  split; [done|]. eexists. split; [reflexivity|]. split.
  - unfold set_upload_date. by rewrite length_fmap.
  - intros i r0 Hi. rewrite set_upload_date_lookup, Hi. cbn.
    eexists. split; [reflexivity|]. by case_decide.
Qed.

Lemma appended_ledger_is_Some env row x : is_Some (appended_ledger env row x) ↔ is_Some x.
Proof.
  unfold appended_ledger. destruct x as [sheet|]; [|done].
  destruct (df_to_excel env _); split; eauto.
Qed.

Lemma stamped_ledger_is_Some env u x : is_Some (stamped_ledger env u x) ↔ is_Some x.
Proof.
  unfold stamped_ledger. destruct x as [sheet|]; [|done]. cbn zeta.
  destruct (loc_takes env u _); [|done].
  destruct (df_to_excel env _); split; eauto.
Qed.

Lemma download_each_ledger env urls : ∀ acc w,
  is_Some (description_xlsx (world (download_each env acc urls w))) ↔
  is_Some (description_xlsx w).
Proof.
  induction urls as [|u urls IH]; intros acc w; [done|].
  cbn [download_each]. bot_unfold.
  destruct (download_reel_spec env u w) as (r & w1 & l1 & -> & _ & _ & _ & _ & _ & Hx & _).
  specialize (IH (match r with Some e => acc ++ [e] | None => acc end) w1).
  destruct (download_each env _ urls w1) as [r2 w2 l2]. cbn in *.
  rewrite IH, Hx. destruct r; [apply appended_ledger_is_Some|done].
Qed.

Lemma process_daily_reels_ledger env w :
  is_Some (description_xlsx (world (process_daily_reels env w))) ↔
  is_Some (description_xlsx w).
Proof.
  destruct (decide (length (available w) < daily_limit)) as [Hlt|Hge].
  - by rewrite process_daily_reels_short.
  - destruct (process_daily_reels_full env w) as (batch & w1 & l & Hrun & _ & -> & _); [lia|].
    cbn. pose proof (download_each_ledger env (selected_reels env w) [] w) as H.
    by rewrite Hrun in H.
Qed.

Lemma upload_next_reel_ledger env w :
  is_Some (description_xlsx (world (upload_next_reel env w))) ↔
  is_Some (description_xlsx w).
Proof.
  destruct (daily_json w !! daily_reels_file env) as [[|[|e q]]|] eqn:Hfile.
  - by rewrite (upload_next_reel_nothing _ _ _ Hfile eq_refl).
  - by rewrite (upload_next_reel_nothing _ _ _ Hfile eq_refl).
  - destruct (clip_upload env (file_path e) (description e)) eqn:Hup.
    + destruct (upload_next_reel_success _ _ _ _ Hfile Hup) as (l & -> & _). cbn.
      apply stamped_ledger_is_Some.
    + by rewrite (upload_next_reel_failure _ _ _ _ Hfile Hup).
  - by rewrite (upload_next_reel_absent _ _ Hfile).
Qed.

(** X8.  No scheduled job creates or removes the ledger file: over any
    sequence of jobs a ledger that is absent stays absent, whatever is
    downloaded and published meanwhile, and one that is there stays there.
    Only [initialize_files] creates it. *)
Theorem ledger_is_never_created_by_jobs (jobs : list (action * Env)) (w : World) :
  (is_Some (description_xlsx (world (run_jobs jobs w))) ↔ is_Some (description_xlsx w)) ∧
  (description_xlsx w = None → description_xlsx (world (run_jobs jobs w)) = None) ∧
  is_Some (description_xlsx (world (run_jobs jobs (world (initialize_files w))))).
Proof.
  assert (∀ w, is_Some (description_xlsx (world (run_jobs jobs w))) ↔
               is_Some (description_xlsx w)) as Hinv.
  { clear w. induction jobs as [|[[|] env] jobs IH]; intros w; [done| |].
    - cbn [run_jobs]. unfold run_job. cbn [fst snd]. bot_unfold.
      pose proof (upload_next_reel_ledger env w) as H1.
      destruct (upload_next_reel_cases env w) as (w1 & l1 & Hrun & _).
      rewrite Hrun in *. cbn in H1. specialize (IH w1).
      destruct (run_jobs jobs w1). cbn in *. by rewrite IH.
    - cbn [run_jobs]. unfold run_job. cbn [fst snd]. bot_unfold.
      pose proof (process_daily_reels_ledger env w) as H1.
      destruct (process_daily_reels_cases env w) as (batch & w1 & l1 & Hrun & _).
      rewrite Hrun in *. cbn in H1. specialize (IH w1).
      destruct (run_jobs jobs w1). cbn in *. by rewrite IH. }
  split_and!; [apply Hinv| |].
  - intros Hnone. apply eq_None_not_Some. rewrite Hinv, Hnone. by intros [? ?].
  - apply Hinv. unfold initialize_files, save_json_file, used_store. bot_unfold.
    destruct w as [r [u|] d [x|] l]; cbn; eauto.
Qed.

(** ** Publishing and the download directory *)

Lemma elem_of_without_video p w f :
  f ∈ without_video p w ↔ f ∈ dir_listing w ∧ video_name p ≠ Some f.
Proof.
  unfold without_video. destruct (video_name p) as [file|]; [|split; [by split|tauto]].
  destruct (bool_decide (file ∈ dir_listing w)) eqn:Hin.
  - rewrite list_elem_of_filter. split; intros [H1 H2].
    + split; [done|]. by intros [= ->].
    + split; [|done]. by intros ->.
  - apply bool_decide_eq_false in Hin. split; [|tauto].
    intros Hf. split; [done|]. by intros [= ->].
Qed.


Lemma upload_next_reel_dir_subset env w :
  dir_listing (world (upload_next_reel env w)) ⊆ dir_listing w.
Proof.
  intros f. destruct (daily_json w !! daily_reels_file env) as [[|[|e q]]|] eqn:Hfile.
  - by rewrite (upload_next_reel_nothing _ _ _ Hfile eq_refl).
  - by rewrite (upload_next_reel_nothing _ _ _ Hfile eq_refl).
  - destruct (clip_upload env (file_path e) (description e)) eqn:Hup.
    + destruct (upload_next_reel_success _ _ _ _ Hfile Hup) as (l & -> & _). cbn.
      rewrite elem_of_without_video. tauto.
    + by rewrite (upload_next_reel_failure _ _ _ _ Hfile Hup).
  - by rewrite (upload_next_reel_absent _ _ Hfile).
Qed.


(** ** A day of drain calls *)

Lemma successes_app (l1 l2 : list LogRecord) : successes (l1 ++ l2) = successes l1 + successes l2.
Proof. unfold successes. by rewrite filter_app, length_app. Qed.

Lemma filter_success_attempt (l : list LogRecord) :
  filter is_success (filter is_any_attempt l) = filter is_success l.
Proof.
  induction l as [|[lv m] l IH]; [done|].
  rewrite !filter_cons. destruct m; cbn; repeat case_decide; try done;
    rewrite ?filter_cons; cbn; repeat case_decide; try done; by rewrite IH.
Qed.

Ltac no_success :=
  match goal with
  | |- context [successes ?l] =>
      let H := fresh in
      assert (successes l = 0) as H
        by (unfold successes, read_errors; cbn [app];
            repeat (rewrite filter_cons; cbn); rewrite ?filter_nil;
            repeat case_decide; done);
      rewrite H
  end.

Lemma upload_next_reel_drop env w :
  daily_queue (daily_reels_file env) (world (upload_next_reel env w)) =
    drop (successes (logs (upload_next_reel env w))) (daily_queue (daily_reels_file env) w) ∧
  successes (logs (upload_next_reel env w)) ≤ 1.
Proof.
  destruct (daily_json w !! daily_reels_file env) as [[|[|e q]]|] eqn:Hfile.
  - rewrite (upload_next_reel_nothing _ _ _ Hfile eq_refl). cbn [logs world]. no_success.
    split; [done|lia].
  - rewrite (upload_next_reel_nothing _ _ _ Hfile eq_refl). cbn [logs world]. no_success.
    split; [done|lia].
  - destruct (clip_upload env (file_path e) (description e)) eqn:Hup.
    + destruct (upload_next_reel_success _ _ _ _ Hfile Hup) as (l & -> & Hl). cbn [logs world].
      assert (successes l = 1) as ->.
      { unfold successes. by rewrite <- filter_success_attempt, Hl. }
      split; [|done]. unfold daily_queue. cbn. by rewrite lookup_insert_eq, Hfile.
    + rewrite (upload_next_reel_failure _ _ _ _ Hfile Hup). cbn [logs world]. no_success.
      split; [done|lia].
  - rewrite (upload_next_reel_absent _ _ Hfile). cbn [logs world]. no_success.
    split; [done|lia].
Qed.

(** X12.  After any number of drain calls of one date, that date's queue
    is the former queue without its first [k] entries, where [k] is the
    number of accepted publishes in the log; [k] is at most the number of
    calls. *)
Theorem drains_drop_one_entry_per_success (envs : list Env) (file : string) (w : World) :
  Forall (λ env, daily_reels_file env = file) envs →
  daily_queue file (world (run_jobs (drains envs) w)) =
    drop (successes (logs (run_jobs (drains envs) w))) (daily_queue file w) ∧
  successes (logs (run_jobs (drains envs) w)) ≤ length envs.
Proof.
  intros Hall. revert w. induction Hall as [|env envs Hfile _ IH]; intros w.
  - split; [done|]. unfold successes. cbn. lia.
  - rewrite drains_cons. bot_unfold.
    destruct (upload_next_reel_drop env w) as [Hq Hn]. rewrite Hfile in Hq.
    destruct (upload_next_reel_cases env w) as (w1 & l1 & Hrun & _). rewrite Hrun in *.
    cbn [world logs] in Hq, Hn. destruct (IH w1) as [Hq' Hn'].
    destruct (run_jobs (drains envs) w1) as [r w2 l2]. cbn [world logs length] in *.
    rewrite successes_app, Hq', Hq, drop_drop. split; [done|lia].
Qed.

Lemma drains_drop_witness :
  Forall (λ env, daily_reels_file env = "daily_reels_2024-03-04.json")
    [offline monday_evening; online monday_evening []; online monday_evening []] ∧
  daily_queue "daily_reels_2024-03-04.json"
    (world (run_jobs (drains [offline monday_evening; online monday_evening [];
                              online monday_evening []]) world_monday))
  = drop 2 monday_batch.
Proof.
  assert (Forall (λ env, daily_reels_file env = "daily_reels_2024-03-04.json")
            [offline monday_evening; online monday_evening []; online monday_evening []])
    as Hday by (repeat constructor).
  split; [exact Hday|].
  exact (eq_trans (proj1 (drains_drop_one_entry_per_success _ _ world_monday Hday)) eq_refl).
Defined.

Lemma drains_dir_subset envs : ∀ w,
  dir_listing (world (run_jobs (drains envs) w)) ⊆ dir_listing w.
Proof.
  induction envs as [|env envs IH]; intros w; [done|].
  rewrite drains_cons. bot_unfold.
  pose proof (upload_next_reel_dir_subset env w) as H1.
  destruct (upload_next_reel_cases env w) as (w1 & l1 & Hrun & _). rewrite Hrun in *.
  cbn in H1. specialize (IH w1).
  destruct (run_jobs (drains envs) w1) as [r w2 l2]. cbn in *. by trans (dir_listing w1).
Qed.

Lemma path_exists_stays_false p w w' :
  dir_listing w' ⊆ dir_listing w → path_exists p w = false → path_exists p w' = false.
Proof.
  intros Hsub Hno. destruct (path_exists p w') eqn:Hyes; [|done].
  by rewrite (path_exists_mono p w' w Hsub Hyes) in Hno.
Qed.

Lemma drains_all_accepted envs : ∀ w file q,
  daily_json w !! file = Some (Holds q) →
  Forall (λ env, daily_reels_file env = file ∧ ∀ p c, clip_upload env p c = true) envs →
  returned (run_jobs (drains envs) w) = inr tt ∧
  daily_json (world (run_jobs (drains envs) w)) !! file = Some (Holds (drop (length envs) q)) ∧
  (∀ e, e ∈ take (length envs) q →
        path_exists (file_path e) (world (run_jobs (drains envs) w)) = false) ∧
  used_json (world (run_jobs (drains envs) w)) = used_json w.
Proof.
  induction envs as [|env envs IH]; intros w file q Hq Hall.
  - cbn. split_and!; try done. by inversion 1.
  - apply Forall_cons in Hall as [[Hfile Hok] Hall].
    rewrite drains_cons. bot_unfold. rewrite <- Hfile in Hq.
    destruct q as [|e q].
    + rewrite (upload_next_reel_nothing _ _ _ Hq eq_refl).
      rewrite Hfile in Hq. destruct (IH w file [] Hq Hall) as (Hr & Hd & _ & Hu).
      destruct (run_jobs (drains envs) w) as [r w2 l2]. cbn in *.
      rewrite drop_nil in Hd. split_and!; try done. by inversion 1.
    + destruct (upload_next_reel_success _ _ _ _ Hq (Hok _ _)) as (l & Hrun & _).
      rewrite Hrun. clear Hrun. set (w1 := mk_world _ _ _ _ _).
      assert (daily_json w1 !! file = Some (Holds q)) as Hq1.
      { subst w1. cbn. by rewrite Hfile, lookup_insert_eq. }
      assert (path_exists (file_path e) w1 = false) as Hgone
        by (by apply (path_exists_without_video _ w)).
      destruct (IH w1 file q Hq1 Hall) as (Hr & Hd & Hp & Hu).
      pose proof (drains_dir_subset envs w1) as Hsub.
      destruct (run_jobs (drains envs) w1) as [r w2 l2]. cbn in *.
      split_and!; try done.
      intros e' [->|Hin]%elem_of_cons; [|by apply Hp].
      by apply (path_exists_stays_false _ w1).
Qed.

(** X13.  A prepare call with a sufficient pool followed by the drain
    slots of a day, all of the same date and all accepted: the jobs return
    normally, the day's queue file ends up holding the empty list, no video
    of the batch is left, and the used set has grown by the sample.  The
    number of drain slots of a day covers [daily_limit]. *)
Theorem accepted_slots_drain_the_batch (d : weekday) (prep : Env) (envs : list Env)
    (w : World) :
  daily_limit ≤ length (available w) →
  length envs = length (slots d do_upload_next_reel) →
  Forall (λ env, daily_reels_file env = daily_reels_file prep ∧
                 ∀ p c, clip_upload env p c = true) envs →
  let day := run_jobs ((do_process_daily_reels, prep) :: drains envs) w in
  ∃ batch,
    returned (process_daily_reels prep w) = inr batch ∧
    returned day = inr tt ∧
    daily_json (world day) !! daily_reels_file prep = Some (Holds []) ∧
    (∀ e, e ∈ batch → path_exists (file_path e) (world day) = false) ∧
    used_set (world day) = used_set w ++ selected_reels prep w.
Proof.
  intros Hge Hlen Hall day. subst day. cbn [run_jobs]. unfold run_job. cbn [fst snd].
  bot_unfold.
  destruct (process_daily_reels_full prep w Hge) as (batch & w1 & l & Hrun & Hret & Hw & _).
  destruct (download_each_spec prep (selected_reels prep w) [] w)
    as (b' & w1' & l' & Hrun' & _ & _ & _ & _ & Hsub & _).
  rewrite Hrun in Hrun'. injection Hrun' as <- _ _.
  apply sublist_length in Hsub. rewrite length_fmap, selected_reels_length in Hsub by done.
  assert (length envs = 5) as Hfive by (rewrite Hlen; by destruct d).
  destruct (process_daily_reels prep w) as [r w' lp] eqn:Hp. cbn in Hret, Hw. subst r w'.
  set (w2 := mk_world _ _ _ _ _).
  assert (daily_json w2 !! daily_reels_file prep = Some (Holds batch)) as Hq
    by (subst w2; cbn; by rewrite lookup_insert_eq).
  destruct (drains_all_accepted envs w2 _ batch Hq Hall) as (Hr & Hd & Hgone & Hu).
  destruct (run_jobs (drains envs) w2) as [r w3 l3]. cbn [returned world logs] in *.
  exists batch. split_and!; try done.
  - rewrite Hd. by rewrite drop_ge by (unfold daily_limit in *; lia).
  - intros e He. apply Hgone. by rewrite take_ge by (unfold daily_limit in *; lia).
  - unfold used_set at 1. rewrite Hu. reflexivity.
Qed.

Lemma accepted_slots_witness :
  daily_limit ≤ length (available (fresh_world ten_references)) ∧
  length (replicate 5 (online monday_evening [])) = length (slots monday do_upload_next_reel) ∧
  Forall (λ env, daily_reels_file env = daily_reels_file (online midnight []) ∧
                 ∀ p c, clip_upload env p c = true) (replicate 5 (online monday_evening [])) ∧
  daily_json (world (run_jobs ((do_process_daily_reels, online midnight []) ::
                                drains (replicate 5 (online monday_evening [])))
                       (fresh_world ten_references)))
    !! daily_reels_file (online midnight []) = Some (Holds []).
Proof.
  assert (daily_limit ≤ length (available (fresh_world ten_references))) as Hpool
    by (apply Nat.leb_le; reflexivity).
  assert (Forall (λ env, daily_reels_file env = daily_reels_file (online midnight []) ∧
                         ∀ p c, clip_upload env p c = true)
            (replicate 5 (online monday_evening []))) as Hall
    by (repeat constructor).
  split_and!; [exact Hpool|reflexivity|exact Hall|].
  destruct (accepted_slots_drain_the_batch monday (online midnight [])
              (replicate 5 (online monday_evening [])) (fresh_world ten_references)
              Hpool eq_refl Hall) as (batch & _ & _ & Hq & _).
  exact Hq.
Defined.

(** ** The used set over time *)

(** X14.  Every entry that [process_daily_reels] returns has a reference
    that is listed in [reels.json], was not used before the call, and is
    used after it. *)
Theorem batch_references_are_fresh (env : Env) (w : World) :
  ∃ batch, returned (process_daily_reels env w) = inr batch ∧
    ∀ e, e ∈ batch →
      url e ∈ all_items w ∧ (url e ∉ used_set w) ∧
      url e ∈ used_set (world (process_daily_reels env w)).
Proof.
  destruct (decide (length (available w) < daily_limit)) as [Hlt|Hge].
  - rewrite process_daily_reels_short by done. exists []. split; [done|]. by inversion 1.
  - destruct (process_daily_reels_full env w) as (batch & w1 & l & Hrun & -> & -> & _); [lia|].
    destruct (download_each_spec env (selected_reels env w) [] w)
      as (b' & w1' & l' & Hrun' & _ & _ & _ & _ & Hsub & _).
    rewrite Hrun in Hrun'. injection Hrun' as <- _ _.
    exists batch. split; [done|]. intros e He.
    assert (url e ∈ selected_reels env w) as Hsel.
    { eapply elem_of_sublist; [|exact Hsub]. apply list_elem_of_fmap. by exists e. }
    assert (url e ∈ available w) as Hav.
    { eapply elem_of_submseteq; [exact Hsel|apply selected_reels_submseteq]. }
    unfold available in Hav. apply list_elem_of_filter in Hav as [Hnew Hall].
    split_and!; try done. unfold used_set at 1. cbn. apply elem_of_app. by right.
Qed.

Lemma run_job_used job w :
  ∃ sel, used_set (world (run_job job w)) = used_set w ++ sel ∧
    sel ⊆+ available w ∧ all_items (world (run_job job w)) = all_items w.
Proof.
  destruct job as [[|] env]; unfold run_job; cbn [fst snd].
  - destruct (upload_next_reel_cases env w) as (w' & l & -> & Hr & Hu & _). cbn.
    exists []. unfold used_set, all_items. rewrite Hr, Hu, app_nil_r.
    split_and!; try done. apply submseteq_nil_l.
  - bot_unfold. destruct (decide (length (available w) < daily_limit)) as [Hlt|Hge].
    + rewrite process_daily_reels_short by done. cbn. exists []. rewrite app_nil_r.
      split_and!; try done. apply submseteq_nil_l.
    + destruct (process_daily_reels_full env w) as (batch & w1 & l & _ & Hret & Hw & _); [lia|].
      destruct (process_daily_reels env w) as [r w' l']. cbn in *. subst.
      exists (selected_reels env w). split_and!; [done|apply selected_reels_submseteq|done].
Qed.

Lemma used_step_distinct w sel :
  NoDup (all_items w) → NoDup (used_set w) → sel ⊆+ available w →
  NoDup (used_set w ++ sel).
Proof.
  intros Hall Hused Hsel. apply NoDup_app. split_and!; [done| |].
  - intros x Hx Hin. apply (elem_of_submseteq _ _ _ Hin) in Hsel as Hin'.
    unfold available in Hin'. apply list_elem_of_filter in Hin' as [Hnew _]. done.
  - eapply submseteq_NoDup; [exact Hsel|]. unfold available. by apply NoDup_filter.
Qed.

(** X15.  When [reels.json] lists no reference twice and the used list
    holds none twice, the used list holds none twice after any sequence of
    scheduled jobs: no reference is selected a second time. *)
Theorem no_reference_is_used_twice (jobs : list (action * Env)) (w : World) :
  NoDup (all_items w) → NoDup (used_set w) →
  NoDup (used_set (world (run_jobs jobs w))).
Proof.
  revert w. induction jobs as [|job jobs IH]; intros w Hall Hused; [done|].
  cbn [run_jobs]. bot_unfold.
  destruct (run_job_used job w) as (sel & Hu & Hsel & Hitems).
  destruct (run_job_cases job w) as (w1 & l1 & Hrun & _). rewrite Hrun in *. cbn in Hu, Hitems.
  specialize (IH w1). destruct (run_jobs jobs w1) as [r w2 l2]. cbn in *.
  apply IH; [by rewrite Hitems|]. rewrite Hu. by apply used_step_distinct.
Qed.

Lemma no_reference_is_used_twice_witness :
  NoDup (all_items (fresh_world ten_references)) ∧
  NoDup (used_set (fresh_world ten_references)) ∧
  NoDup (used_set (world (run_jobs [(do_process_daily_reels, online midnight []);
                                    (do_upload_next_reel, online monday_evening []);
                                    (do_process_daily_reels, online tuesday_prepare [])]
                            (fresh_world ten_references)))).
Proof.
  assert (NoDup (all_items (fresh_world ten_references))) as Hall
    by (apply (bool_decide_unpack _); vm_compute; reflexivity).
  assert (NoDup (used_set (fresh_world ten_references))) as Hused by constructor.
  split_and!; [exact Hall|exact Hused|].
  exact (no_reference_is_used_twice _ _ Hall Hused).
Defined.

(** X16.  Scheduled jobs never write [reels.json], and when every used
    reference is listed there, this is still so after any sequence of
    jobs. *)
Theorem used_references_stay_listed (jobs : list (action * Env)) (w : World) :
  used_set w ⊆ all_items w →
  all_items (world (run_jobs jobs w)) = all_items w ∧
  used_set (world (run_jobs jobs w)) ⊆ all_items w.
Proof.
  revert w. induction jobs as [|job jobs IH]; intros w Hsub; [done|].
  cbn [run_jobs]. bot_unfold.
  destruct (run_job_used job w) as (sel & Hu & Hsel & Hitems).
  destruct (run_job_cases job w) as (w1 & l1 & Hrun & _). rewrite Hrun in *. cbn in Hu, Hitems.
  specialize (IH w1). destruct (run_jobs jobs w1) as [r w2 l2]. cbn in *.
  rewrite <- Hitems. apply IH. rewrite Hu, Hitems. intros x [Hx|Hx]%elem_of_app; [by apply Hsub|].
  apply (elem_of_submseteq _ _ _ Hx) in Hsel as Hx'.
  unfold available in Hx'. by apply list_elem_of_filter in Hx' as [_ ?].
Qed.

Lemma used_references_stay_listed_witness :
  used_set world_A ⊆ all_items world_A ∧
  used_set (world (run_jobs [(do_upload_next_reel, online monday_evening [])] world_A))
    ⊆ all_items world_A.
Proof.
  assert (used_set world_A ⊆ all_items world_A) as Hsub.
  { intros x ->%list_elem_of_singleton. apply list_elem_of_here. }
  split; [exact Hsub|].
  exact (proj2 (used_references_stay_listed _ world_A Hsub)).
Defined.

Lemma process_daily_reels_logs env w :
  ∃ rest, logs (process_daily_reels env w) =
    read_errors reels_file (reels_json w) ++ read_errors used_file (used_json w) ++ rest.
Proof.
  destruct (decide (length (available w) < daily_limit)) as [Hlt|Hge].
  - rewrite process_daily_reels_short by done. cbn [logs]. eexists.
    rewrite app_nil_r, <- app_assoc. reflexivity.
  - unfold process_daily_reels, random_sample. bot_unfold.
    rewrite get_available_reels_run. rewrite decide_False by done.
    rewrite decide_True by lia.
    destruct (download_each_spec env (draw (available w) daily_limit (randbelow env)) [] w)
      as (batch & w1 & l & -> & _).
    unfold save_json_file. bot_unfold. rewrite load_json_file_run. cbn [logs].
    eexists. rewrite app_nil_r, <- !app_assoc. reflexivity.
Qed.

(** X17.  When [used.json] cannot be decoded and enough references are
    listed, every listed reference counts as available, the error is logged,
    and [process_daily_reels] rewrites [used.json] to hold exactly the
    sample: what had been used before is forgotten. *)
Theorem malformed_used_file_is_rewritten (env : Env) (w : World) :
  used_json w = Some Malformed →
  daily_limit ≤ length (all_items w) →
  available w = all_items w ∧
  used_json (world (process_daily_reels env w)) = Some (Holds (selected_reels env w)) ∧
  mk_log ERROR (Error_reading used_file) ∈ logs (process_daily_reels env w).
Proof.
  intros Hbad Hlen.
  assert (available w = all_items w) as Hav.
  { unfold available, used_set. rewrite Hbad. cbn. clear Hlen.
    induction (all_items w) as [|x l IH]; [done|].
    rewrite filter_cons, decide_True by apply not_elem_of_nil. f_equal. exact IH. }
  split; [done|]. rewrite <- Hav in Hlen.
  destruct (process_daily_reels_full env w Hlen) as (batch & w1 & l & _ & _ & -> & _).
  split.
  - cbn. unfold used_set. by rewrite Hbad.
  - destruct (process_daily_reels_logs env w) as [rest ->]. rewrite Hbad. cbn.
    apply elem_of_app. right. apply list_elem_of_here.
Qed.

Lemma malformed_used_file_witness :
  used_json world_damaged = Some Malformed ∧
  daily_limit ≤ length (all_items world_damaged) ∧
  used_json (world (process_daily_reels (online midnight []) world_damaged)) =
    Some (Holds (selected_reels (online midnight []) world_damaged)).
Proof.
  assert (daily_limit ≤ length (all_items world_damaged)) as Hlen
    by (apply Nat.leb_le; reflexivity).
  split_and!; [reflexivity|exact Hlen|].
  exact (proj1 (proj2 (malformed_used_file_is_rewritten (online midnight []) world_damaged
                         eq_refl Hlen))).
Defined.

(** ** Starting again *)

(** X18.  [process_daily_reels] does not look for a queue of the current
    date: with a sufficient pool it writes the new batch over it.  An entry
    of the former queue whose reference was used is not in the new queue,
    and its reference stays used. *)
Theorem second_prepare_replaces_the_queue (env : Env) (w : World) (q : list BatchEntry) :
  daily_json w !! daily_reels_file env = Some (Holds q) →
  daily_limit ≤ length (available w) →
  ∃ batch,
    returned (process_daily_reels env w) = inr batch ∧
    daily_json (world (process_daily_reels env w)) !! daily_reels_file env =
      Some (Holds batch) ∧
    ∀ e, e ∈ q → url e ∈ used_set w →
         (e ∉ batch) ∧ url e ∈ used_set (world (process_daily_reels env w)).
Proof.
  intros Hq Hge.
  destruct (process_daily_reels_full env w Hge) as (batch & w1 & l & Hrun & -> & -> & _).
  destruct (download_each_spec env (selected_reels env w) [] w)
    as (b' & w1' & l' & Hrun' & _ & _ & _ & _ & Hsub & _).
  rewrite Hrun in Hrun'. injection Hrun' as <- _ _.
  exists batch. cbn. rewrite lookup_insert_eq. split_and!; try done.
  intros e He Hused. split.
  - intros Hin.
    assert (url e ∈ selected_reels env w) as Hsel.
    { eapply elem_of_sublist; [|exact Hsub]. apply list_elem_of_fmap. by exists e. }
    pose proof (elem_of_submseteq _ _ _ Hsel (selected_reels_submseteq env w)) as Hav.
    unfold available in Hav. by apply list_elem_of_filter in Hav as [Hnew _].
  - unfold used_set at 1. cbn. apply elem_of_app. by left.
Qed.

Lemma second_prepare_witness :
  daily_json world_monday !! daily_reels_file (online monday_evening []) =
    Some (Holds monday_batch) ∧
  daily_limit ≤ length (available world_monday) ∧
  ∃ batch,
    daily_json (world (process_daily_reels (online monday_evening []) world_monday))
      !! daily_reels_file (online monday_evening []) = Some (Holds batch) ∧
    ∀ e, e ∈ monday_batch → url e ∈ used_set world_monday → e ∉ batch.
Proof.
  assert (daily_json world_monday !! daily_reels_file (online monday_evening []) =
            Some (Holds monday_batch)) as Hq by (vm_compute; reflexivity).
  assert (daily_limit ≤ length (available world_monday)) as Hpool
    by (apply Nat.leb_le; vm_compute; reflexivity).
  split_and!; [exact Hq|exact Hpool|].
  destruct (second_prepare_replaces_the_queue (online monday_evening []) world_monday
              monday_batch Hq Hpool) as (batch & _ & Hfile & Hold).
  exists batch. split; [exact Hfile|]. intros e He Hu. exact (proj1 (Hold e He Hu)).
Defined.

(** X19.  [run], up to its loop, never raises and registers the jobs of
    [setup_schedule].  When the queue file of the current date exists it
    leaves the files alone and logs its two lines only; when it does not, it
    makes one prepare call, which changes nothing if the pool is short.
    When the file existed or the pool sufficed, the file exists afterwards
    and starting again on the same date changes nothing. *)
Theorem run_startup_resumes (env : Env) (w : World) :
  start_result (run_startup env w) = inr tt ∧
  scheduled (run_startup env w) = setup_schedule ∧
  (is_Some (daily_json w !! daily_reels_file env) →
     start_world (run_startup env w) = w ∧
     start_logs (run_startup env w) = [Starting_Instagram_Reel_Bot; Schedule_setup_complete]) ∧
  (daily_json w !! daily_reels_file env = None →
     start_world (run_startup env w) = world (process_daily_reels env w)) ∧
  (daily_json w !! daily_reels_file env = None → length (available w) < daily_limit →
     start_world (run_startup env w) = w) ∧
  (is_Some (daily_json w !! daily_reels_file env) ∨ daily_limit ≤ length (available w) →
     is_Some (daily_json (start_world (run_startup env w)) !! daily_reels_file env) ∧
     ∀ env', daily_reels_file env' = daily_reels_file env →
       start_world (run_startup env' (start_world (run_startup env w))) =
         start_world (run_startup env w)).
Proof.
  unfold run_startup. bot_unfold.
  destruct (daily_json w !! daily_reels_file env) as [body|] eqn:Hfile; cbn.
  - split_and!; try done. intros _. split; [by rewrite Hfile|].
    intros env' ->. by rewrite Hfile.
  - destruct (process_daily_reels_cases env w) as (batch & w1 & l & Hrun & _).
    rewrite Hrun. cbn. split_and!; try done.
    + intros _ Hlt. rewrite process_daily_reels_short in Hrun by done. by injection Hrun.
    + intros [Hs|Hge]; [by apply is_Some_None in Hs|].
      destruct (process_daily_reels_queues env w Hge) as (b & _ & Hq & _).
      rewrite Hrun in Hq. cbn in Hq.
      assert (is_Some (daily_json w1 !! daily_reels_file env)) as [body Hbody]
        by (rewrite Hq, lookup_insert_eq; eauto).
      split; [eauto|]. intros env' ->. by rewrite Hbody.
Qed.

(** ** One queue file per date *)

Lemma pretty_N_go_length (k : nat) : ∀ (x : N) (s : string),
  (x < 10 ^ N.of_nat k)%N → String.length (pretty_N_go x s) ≤ k + String.length s.
Proof.
  induction k as [|k IH]; intros x s Hx.
  - assert (x = 0%N) as -> by (cbn in Hx; lia). by rewrite pretty_N_go_0.
  - destruct (decide (x = 0%N)) as [->|Hpos]; [rewrite pretty_N_go_0; lia|].
    rewrite pretty_N_go_step by lia.
    etrans; [apply IH|cbn; lia].
    apply N.Div0.div_lt_upper_bound.
    rewrite Nat2N.inj_succ, N.pow_succ_r' in Hx. lia.
Qed.

Lemma pretty_N_go_head (x : N) : ∀ s,
  (0 < x)%N → ∃ c t, pretty_N_go x s = String c t ∧ c ≠ "0"%char.
Proof.
  induction (N.lt_wf_0 x) as [x _ IH]; intros s Hx.
  rewrite pretty_N_go_step by done.
  destruct (decide (x `div` 10 = 0)%N) as [Hsmall|Hbig].
  - rewrite Hsmall, pretty_N_go_0. eexists _, _. split; [done|].
    assert (x < 10)%N by (apply (N.div_small_iff x 10); [done|exact Hsmall]).
    rewrite N.mod_small by done.
    destruct x as [|p]; [done|]. unfold pretty_N_char.
    do 4 (destruct p as [p|p|]; try done); lia.
  - apply IH; [apply N.div_lt; [done|reflexivity]|by apply N.neq_0_lt_0].
Qed.

Lemma pretty_nat_numeral (n : nat) : numeral (pretty n).
Proof.
  unfold pretty, pretty_nat, pretty, pretty_N. case_decide; [by left|].
  right. apply pretty_N_go_head. lia.
Qed.

Lemma pretty_nat_length (n k : nat) :
  n < 10 ^ k → 0 < k → String.length (pretty n) ≤ k.
Proof.
  intros Hn Hk. unfold pretty, pretty_nat, pretty, pretty_N. case_decide; [cbn; lia|].
  etrans; [apply (pretty_N_go_length k)|cbn; lia].
  change 10%N with (N.of_nat 10). rewrite <- (Nat2N.inj_pow 10 k). lia.
Qed.

Lemma string_app_length (a b : string) :
  String.length (a +:+ b) = String.length a + String.length b.
Proof. induction a as [|c a IH]; [done|]. rewrite string_app_cons. cbn. by rewrite IH. Qed.

Lemma zeros_length k : String.length (Str.zeros k) = k.
Proof. induction k as [|k IH]; [done|]. cbn. by rewrite IH. Qed.

Lemma zpad_length (width n : nat) :
  String.length (pretty n) ≤ width → String.length (Str.zpad width n) = width.
Proof. intros Hle. unfold Str.zpad. rewrite string_app_length, zeros_length. lia. Qed.

Lemma zeros_numeral_inj ka : ∀ kb a b,
  numeral a → numeral b →
  Str.zeros ka +:+ a = Str.zeros kb +:+ b → a = b.
Proof.
  induction ka as [|ka IH]; intros [|kb] a b Ha Hb; cbn [Str.zeros];
    rewrite ?string_app_nil_l, ?string_app_cons.
  - done.
  - intros ->. destruct Ha as [Ha|(c & t & Ha & Hc)].
    + injection Ha as Ha. destruct kb; [|done]. destruct Hb as [->|(c & t & -> & _)]; done.
    + by injection Ha as <- _.
  - intros <-. destruct Hb as [Hb|(c & t & Hb & Hc)].
    + injection Hb as Hb. destruct ka; [|done]. destruct Ha as [->|(c & t & -> & _)]; done.
    + by injection Hb as <- _.
  - intros [= Heq]. by apply (IH kb).
Qed.

Lemma zpad_inj (width n m : nat) : Str.zpad width n = Str.zpad width m → n = m.
Proof.
  unfold Str.zpad. intros Heq. apply (inj pretty).
  eapply zeros_numeral_inj; [apply pretty_nat_numeral..|exact Heq].
Qed.

Lemma append_inj_length (a a' b b' : string) :
  String.length a = String.length a' → a +:+ b = a' +:+ b' → a = a' ∧ b = b'.
Proof.
  revert a'. induction a as [|c a IH]; intros [|c' a']; try done.
  rewrite !string_app_cons. intros [= Hlen] [= -> Heq].
  destruct (IH a' Hlen Heq) as [-> ->]. done.
Qed.

(** X20.  For dates in the range of [datetime] two calls use the same
    queue file name exactly when they agree on year, month and day: the time
    of day does not matter, and two dates never share a file. *)
Theorem one_queue_file_per_date (env env' : Env) :
  year (now env) ≤ MAXYEAR → month (now env) ≤ 12 → day (now env) ≤ 31 →
  year (now env') ≤ MAXYEAR → month (now env') ≤ 12 → day (now env') ≤ 31 →
  daily_reels_file env = daily_reels_file env' ↔
    year (now env) = year (now env') ∧ month (now env) = month (now env') ∧
    day (now env) = day (now env').
Proof.
  intros Hy Hm Hd Hy' Hm' Hd'. unfold daily_reels_file, strftime_date. split.
  - intros Heq.
    assert (∀ n, n ≤ MAXYEAR → String.length (Str.zpad 4 n) = 4) as Ly.
    { intros n Hn. apply zpad_length, pretty_nat_length; [|lia].
      apply Nat.le_lt_trans with MAXYEAR; [done|]. apply Nat.ltb_lt. reflexivity. }
    assert (∀ n, n ≤ 31 → String.length (Str.zpad 2 n) = 2) as L2.
    { intros n Hn. apply zpad_length, pretty_nat_length; [|lia].
      apply Nat.le_lt_trans with 31; [done|]. apply Nat.ltb_lt. reflexivity. }
    apply (append_inj_length "daily_reels_" "daily_reels_") in Heq as [_ Heq]; [|done].
    rewrite !string_app_assoc in Heq.
    apply append_inj_length in Heq as [Hyy Heq]; [|by rewrite !Ly].
    apply (append_inj_length "-" "-") in Heq as [_ Heq]; [|done].
    apply append_inj_length in Heq as [Hmm Heq]; [|rewrite !L2; [done|lia..]].
    apply (append_inj_length "-" "-") in Heq as [_ Heq]; [|done].
    apply append_inj_length in Heq as [Hdd _]; [|by rewrite !L2].
    apply zpad_inj in Hyy, Hmm, Hdd. done.
  - intros (-> & -> & ->). done.
Qed.

Lemma one_queue_file_per_date_witness :
  year monday_evening ≤ MAXYEAR ∧ month monday_evening ≤ 12 ∧ day monday_evening ≤ 31 ∧
  year tuesday_morning ≤ MAXYEAR ∧ month tuesday_morning ≤ 12 ∧ day tuesday_morning ≤ 31 ∧
  daily_reels_file (offline monday_evening) ≠ daily_reels_file (online tuesday_morning []).
Proof.
  assert (year monday_evening ≤ MAXYEAR) as Hy by (apply Nat.leb_le; reflexivity).
  assert (month monday_evening ≤ 12) as Hm by (apply Nat.leb_le; reflexivity).
  assert (day monday_evening ≤ 31) as Hd by (apply Nat.leb_le; reflexivity).
  assert (day tuesday_morning ≤ 31) as Hd' by (apply Nat.leb_le; reflexivity).
  split_and!; [exact Hy|exact Hm|exact Hd|exact Hy|exact Hm|exact Hd'|].
  intros Heq.
  destruct (proj1 (one_queue_file_per_date (offline monday_evening) (online tuesday_morning [])
                     Hy Hm Hd Hy Hm Hd') Heq) as (_ & _ & Hday).
  discriminate Hday.
Defined.
